(** * aiida.orm.fields: entity fields, filters, registry and field collection

A shallow embedding of [src/aiida/orm/fields.py].  Python objects that the
module mutates ([QbFieldFilters] instances) live in an explicit heap and
the methods are written in a state-and-exception monad; everything else
is a pure function returning a [result].

Strings are Python [str] values in their UTF-8 encoding: byte-wise
lexicographic comparison ([String.compare]) then agrees with Python's
code-point comparison. *)

From Stdlib Require Import List String Ascii ZArith Bool Arith Lia.
From Stdlib Require Import Permutation Sorted OrderedTypeEx.
Import ListNotations.

Local Open Scope string_scope.
Local Open Scope list_scope.

Notation "s1 +++ s2" := (String.append s1 s2)
  (at level 60, right associativity) : string_scope.

(** ** Exceptions and results *)

Inductive exn : Type :=
| IndexError | KeyError | AttributeError | TypeError | ValueError | RuntimeError
| SystemError.

Inductive result (A : Type) : Type :=
| Ok (a : A)
| Raise (e : exn).
Arguments Ok {A} a.
Arguments Raise {A} e.

(** [try: body except KeyError: raise e'] *)
Definition except_KeyError {A} (body : result A) (e' : exn) : result A :=
  match body with
  | Raise KeyError => Raise e'
  | r => r
  end.

(** ** Python dictionaries with [str] keys

Insertion-ordered association lists.  Assigning to a key that is already
present replaces the value in place; a new key goes to the end. *)

Module Dict.
Section Ops.
Context {V : Type}.

Definition t : Type := list (string * V).

(** [d.get(k)] *)
Fixpoint get (k : string) (d : t) : option V :=
  match d with
  | [] => None
  | (k', v) :: d' => if (k' =? k)%string then Some v else get k d'
  end.

(** [d[k]] *)
Definition getitem (k : string) (d : t) : result V :=
  match get k d with Some v => Ok v | None => Raise KeyError end.

(** [k in d] *)
Definition contains (k : string) (d : t) : bool :=
  match get k d with Some _ => true | None => false end.

(** [d[k] = v] *)
Fixpoint set (k : string) (v : V) (d : t) : t :=
  match d with
  | [] => [(k, v)]
  | (k', v') :: d' =>
      if (k' =? k)%string then (k', v) :: d' else (k', v') :: set k v d'
  end.

(** [del d[k]] *)
Fixpoint remove (k : string) (d : t) : t :=
  match d with
  | [] => []
  | (k', v') :: d' =>
      if (k' =? k)%string then d' else (k', v') :: remove k d'
  end.

(** [d.pop(k)]: the value and the dictionary left behind *)
Definition pop (k : string) (d : t) : option (V * t) :=
  match get k d with
  | Some v => Some (v, remove k d)
  | None => None
  end.

(** [d.update(other)] *)
Definition update (d other : t) : t :=
  fold_left (fun acc kv => set (fst kv) (snd kv) acc) other d.

(** [list(d)] *)
Definition keys (d : t) : list string := map fst d.
End Ops.
Arguments t : clear implicits.
End Dict.

(** ** [sorted] on strings

Python's [sorted] is a stable sort that only asks [x < y]; a stable
insertion sort driven by [String.ltb] returns the same list. *)

Fixpoint insert_sorted (x : string) (l : list string) : list string :=
  match l with
  | [] => [x]
  | y :: l' => if (x <? y)%string then x :: y :: l' else y :: insert_sorted x l'
  end.

Definition sorted (l : list string) : list string :=
  fold_left (fun acc x => insert_sorted x acc) l [].

(** ** QbField and QbAttrField *)

(** A type annotation, as far as a field records it. *)
Inductive pytype : Type :=
| TyClass (qualname : string)
| TyOther (repr : string).

Module QbField.

(** [self.__class__] *)
Inductive class : Type := QbField | QbAttrField.

(** The slots of an instance.  [_doc] is optional because the field
    collector passes a model field's description, which may be [None]. *)
Record t : Type := {
  __class__ : class;
  _key : string;
  _qb_field : string;
  _doc : option string;
  _dtype : option pytype;
  _subscriptable : bool
}.

(** [cls(key, qb_field=None, *, dtype=None, doc='', subscriptable=False)];
    callers spell the defaults out. *)
Definition __init__ (cls : class) (key : string) (qb_field : option string)
    (dtype : option pytype) (doc : option string) (subscriptable : bool) : t :=
  {| __class__ := cls;
     _key := key;
     _qb_field := match qb_field with Some q => q | None => key end;
     _doc := doc;
     _dtype := dtype;
     _subscriptable := subscriptable |}.

Definition key (self : t) : string := _key self.

(** The [qb_field] property; [QbAttrField] overrides it. *)
Definition qb_field (self : t) : string :=
  match __class__ self with
  | QbField => _qb_field self
  | QbAttrField => "attributes." +++ _qb_field self
  end.

Definition doc (self : t) : option string := _doc self.
Definition dtype (self : t) : option pytype := _dtype self.
Definition subscriptable (self : t) : bool := _subscriptable self.

(** [self[key]] *)
Definition __getitem__ (self : t) (key' : string) : result t :=
  if negb (subscriptable self) then Raise IndexError
  else Ok (__init__ (__class__ self)
             (key self +++ "." +++ key')
             (Some (qb_field self +++ "." +++ key'))
             None (Some "") false).

(** [hash((self.key, self.qb_field))]; the interpreter's hash of a pair of
    strings is a parameter. *)
Definition __hash__ (hash : string * string -> Z) (self : t) : Z :=
  hash (key self, qb_field self).

End QbField.

(** ** Python values that occur inside filter mappings *)

#[local] Unset Elimination Schemes.
Inductive pyval : Type :=
| PNone
| PBool (b : bool)
| PInt (z : Z)
| PStr (s : string)
| PField (f : QbField.t)
| PList (xs : list pyval)
| PDict (d : list (string * pyval)).
#[local] Set Elimination Schemes.

(** Structural induction on values, through the nested lists. *)
Section PyvalInd.
Variable P : pyval -> Prop.
Hypothesis HNone : P PNone.
Hypothesis HBool : forall b, P (PBool b).
Hypothesis HInt : forall z, P (PInt z).
Hypothesis HStr : forall s, P (PStr s).
Hypothesis HField : forall f, P (PField f).
Hypothesis HList : forall xs, Forall P xs -> P (PList xs).
Hypothesis HDict : forall d, Forall (fun kv => P (snd kv)) d -> P (PDict d).

Fixpoint pyval_ind (x : pyval) : P x :=
  match x with
  | PNone => HNone
  | PBool b => HBool b
  | PInt z => HInt z
  | PStr s => HStr s
  | PField f => HField f
  | PList xs =>
      HList xs
        ((fix all (l : list pyval) : Forall P l :=
            match l with
            | [] => Forall_nil P
            | y :: l' => Forall_cons y (pyval_ind y) (all l')
            end) xs)
  | PDict d =>
      HDict d
        ((fix all (l : list (string * pyval))
            : Forall (fun kv => P (snd kv)) l :=
            match l with
            | [] => Forall_nil _
            | kv :: l' =>
                Forall_cons kv (pyval_ind (snd kv)) (all l')
            end) d)
  end.
End PyvalInd.

(** The element-wise comparison of two lists and the item-wise comparison
    of two dictionaries, over a comparison [eqb] of their elements. *)
Section Compare.
Variable eqb : pyval -> pyval -> bool.

Fixpoint list_eqb (xs ys : list pyval) {struct xs} : bool :=
  match xs, ys with
  | [], [] => true
  | x :: xs', y :: ys' => eqb x y && list_eqb xs' ys'
  | _, _ => false
  end.

(** Every item of [d] is a key of [d2] with an equal value. *)
Fixpoint items_in (d2 : Dict.t pyval) (d : list (string * pyval))
    {struct d} : bool :=
  match d with
  | [] => true
  | (k, v) :: d' =>
      match Dict.get k d2 with
      | Some w => eqb v w
      | None => false
      end && items_in d2 d'
  end.
End Compare.

(** [x == y] taken as a truth value.  Any comparison with a [QbField] on
    either side runs [QbField.__eq__], whose result is a [QbFieldFilters]
    object and therefore true; [bool] is a subtype of [int]; lists compare
    element-wise; dictionaries compare by size and by looking every item of
    the left one up in the right one. *)
Fixpoint pyval_eqb (x y : pyval) {struct x} : bool :=
  match x, y with
  | PField _, _ => true
  | _, PField _ => true
  | PNone, PNone => true
  | PBool a, PBool b => Bool.eqb a b
  | PBool a, PInt z => (Z.b2z a =? z)%Z
  | PInt z, PBool a => (z =? Z.b2z a)%Z
  | PInt a, PInt b => (a =? b)%Z
  | PStr a, PStr b => (a =? b)%string
  | PList xs, PList ys => list_eqb pyval_eqb xs ys
  | PDict d1, PDict d2 =>
      (List.length d1 =? List.length d2)%nat && items_in pyval_eqb d2 d1
  | _, _ => false
  end.

Definition dict_eqb (d1 d2 : Dict.t pyval) : bool := pyval_eqb (PDict d1) (PDict d2).

(** Dictionaries never hold a key twice; [wf_val] says so for a value and
    everything nested in it. *)
Fixpoint nodupb (l : list string) : bool :=
  match l with
  | [] => true
  | x :: l' => negb (existsb (String.eqb x) l') && nodupb l'
  end.

Fixpoint wf_val (x : pyval) : bool :=
  match x with
  | PList xs => forallb wf_val xs
  | PDict d => nodupb (map fst d) && forallb (fun kv => wf_val (snd kv)) d
  | _ => true
  end.

Definition wf_dict (d : Dict.t pyval) : bool := wf_val (PDict d).

(** ** The heap of [QbFieldFilters] objects

A [QbFieldFilters] instance has one slot, [filters], a dictionary that
its methods mutate in place.  An instance is a reference into the heap
and the heap holds the current [filters] of every instance.  A mapping
nested inside another one is held by value, so the sharing between an
operand and a result that nests it is not represented; it would show
only if an operand were combined again after having been nested, which
none of the properties below does. *)

Definition ref : Type := nat.
Definition heap : Type := list (Dict.t pyval).

Definition M (A : Type) : Type := heap -> result (A * heap).

Definition ret {A} (a : A) : M A := fun h => Ok (a, h).

Definition bind {A B} (c : M A) (k : A -> M B) : M B :=
  fun h => match c h with
           | Ok (a, h') => k a h'
           | Raise e => Raise e
           end.

Definition raise {A} (e : exn) : M A := fun _ => Raise e.

Notation "x <- c ;; k" := (bind c (fun x => k))
  (at level 100, c at next level, right associativity).
Notation "c ;; k" := (bind c (fun _ => k))
  (at level 100, right associativity).

(** Allocation of a fresh instance, and access to the [filters] slot. *)
Definition new_object (d : Dict.t pyval) : M ref :=
  fun h => Ok (List.length h, h ++ [d]).

Definition read (r : ref) : M (Dict.t pyval) :=
  fun h => match nth_error h r with
           | Some d => Ok (d, h)
           | None => Raise SystemError
           end.

Fixpoint replace_nth (r : nat) (d : Dict.t pyval) (h : heap) : heap :=
  match h, r with
  | [], _ => []
  | _ :: h', O => d :: h'
  | x :: h', S r' => x :: replace_nth r' d h'
  end.

Definition write (r : ref) (d : Dict.t pyval) : M unit :=
  fun h => match nth_error h r with
           | Some _ => Ok (tt, replace_nth r d h)
           | None => Raise SystemError
           end.

(** [for x in xs: body(x)] *)
Fixpoint for_each {A} (xs : list A) (body : A -> M unit) : M unit :=
  match xs with
  | [] => ret tt
  | x :: xs' => body x ;; for_each xs' body
  end.

(** An operand of a comparison or combination: an instance of
    [QbFieldFilters] or any other value. *)
Inductive pyobj : Type :=
| Filters (r : ref)
| Value (v : pyval).

(** ** QbFieldFilters *)

Module QbFieldFilters.

(** The two shapes [add_filters] dispatches on. *)
Inductive arg : Type :=
| OfDict (filters : Dict.t pyval)
| OfTriples (filters : list (QbField.t * string * pyval)).

Definition add_filters (self : ref) (filters : arg) : M unit :=
  match filters with
  | OfDict filters =>
      d <- read self ;;
      write self (Dict.update d filters)
  | OfTriples filters =>
      for_each filters (fun '(field, comparator, value) =>
        let qb_field := QbField.qb_field field in
        d <- read self ;;
        if Dict.contains qb_field d then
          match Dict.pop qb_field d with
          | Some (old, d') =>
              write self
                (Dict.set "and"
                   (PList [PDict [(qb_field, old)];
                           PDict [(qb_field, PDict [(comparator, value)])]])
                   d')
          | None => raise KeyError
          end
        else write self (Dict.set qb_field (PDict [(comparator, value)]) d))
  end.

Definition __init__ (filters : arg) : M ref :=
  self <- new_object [] ;;
  add_filters self filters ;;
  ret self.

Definition as_dict (self : ref) : M (Dict.t pyval) := read self.

Definition __getitem__ (self : ref) (key : string) : M pyval :=
  d <- read self ;;
  match Dict.get key d with
  | Some v => ret v
  | None => raise KeyError
  end.

Definition __contains__ (self : ref) (key : string) : M bool :=
  d <- read self ;;
  ret (Dict.contains key d).

Definition __eq__ (self : ref) (other : pyobj) : M bool :=
  match other with
  | Value _ => raise TypeError
  | Filters other =>
      d <- read self ;;
      d' <- read other ;;
      ret (dict_eqb d d')
  end.

Definition __checks (self : ref) (other : pyobj) (logical : string)
    : M (option ref) :=
  match other with
  | Value _ => raise TypeError
  | Filters other =>
      same <- __eq__ other (Filters self) ;;
      if same then ret (Some self)
      else
        d <- read self ;;
        if Dict.contains logical d then
          match Dict.get logical d with
          | Some (PList xs) =>
              d' <- read other ;;
              write self (Dict.set logical (PList (xs ++ [PDict d'])) d) ;;
              ret (Some self)
          | Some _ => raise AttributeError
          | None => raise KeyError
          end
        else ret None
  end.

(** The right-hand side of [self.__checks(other, logical) or ...]. *)
Definition wrap (self : ref) (other : pyobj) (logical : string) : M ref :=
  match other with
  | Value _ => raise AttributeError
  | Filters other =>
      d <- read self ;;
      d' <- read other ;;
      __init__ (OfDict [(logical, PList [PDict d; PDict d'])])
  end.

Definition __and__ (self : ref) (other : pyobj) : M ref :=
  checked <- __checks self other "and" ;;
  match checked with
  | Some r => ret r
  | None => wrap self other "and"
  end.

Definition __or__ (self : ref) (other : pyobj) : M ref :=
  checked <- __checks self other "or" ;;
  match checked with
  | Some r => ret r
  | None => wrap self other "or"
  end.

End QbFieldFilters.

(** ** The comparison methods of QbField

They build [QbFieldFilters] objects, so they come after that class. *)

Module QbFieldOps.

Definition compare (self : QbField.t) (comparator : string) (value : pyval)
    : M ref :=
  QbFieldFilters.__init__ (QbFieldFilters.OfTriples [(self, comparator, value)]).

Definition __eq__ (self : QbField.t) (value : pyval) : M ref := compare self "==" value.

Definition like (self : QbField.t) (value : pyval) : M ref :=
  match value with
  | PStr _ => compare self "like" value
  | _ => raise TypeError
  end.

Definition ilike (self : QbField.t) (value : pyval) : M ref :=
  match value with
  | PStr _ => compare self "ilike" value
  | _ => raise TypeError
  end.

(** The object the expression [f1 == f2] evaluates to, for two fields. *)
Definition eq_expr (f1 f2 : QbField.t) : M pyobj :=
  r <- __eq__ f1 (PField f2) ;;
  ret (Filters r).

End QbFieldOps.

(** ** QbFields, the registry *)

Module QbFields.

Record t : Type := { _fields : Dict.t QbField.t }.

(** [self._fields = fields or {}] *)
Definition __init__ (fields : option (Dict.t QbField.t)) : t :=
  {| _fields := match fields with
                | Some (kv :: d) => kv :: d
                | _ => []
                end |}.

Definition __getitem__ (self : t) (key : string) : result QbField.t :=
  Dict.getitem key (_fields self).

Definition __getattr__ (self : t) (key : string) : result QbField.t :=
  except_KeyError (Dict.getitem key (_fields self)) AttributeError.

Definition __contains__ (self : t) (key : string) : bool :=
  Dict.contains key (_fields self).

Definition __len__ (self : t) : nat := List.length (_fields self).

Definition __iter__ (self : t) : list string := Dict.keys (_fields self).

(** The names that the body of the class defines: its methods, the
    property [_dict] and [__isabstractmethod__]. *)
Definition class_body : list string :=
  ["__isabstractmethod__"; "__init__"; "__repr__"; "__str__"; "__getitem__";
   "__getattr__"; "__contains__"; "__len__"; "__iter__"; "__dir__"; "_dict"].

(** Whether ordinary attribute lookup finds [name] on an instance: the
    instance attribute [_fields], a name of the class body, or a name that
    the interpreter gives every object ([builtin], such as [__class__]). *)
Definition found_normally (builtin : string -> bool) (name : string) : bool :=
  (name =? "_fields")%string || existsb (String.eqb name) class_body
  || builtin name.

(** What the expression [self.name] can evaluate to. *)
Inductive attribute : Type :=
| Field (f : QbField.t)
| Mapping (d : Dict.t QbField.t)
| Copy (d : Dict.t QbField.t)
| Member (name : string)
| Builtin (name : string).

(** [self.name]: ordinary lookup comes first, and [__getattr__] is called
    only when it finds nothing.  [self._fields] is the mapping and
    [self._dict] a deep copy of it. *)
Definition getattr (builtin : string -> bool) (self : t) (name : string)
    : result attribute :=
  if (name =? "_fields")%string then Ok (Mapping (_fields self))
  else if (name =? "_dict")%string then Ok (Copy (_fields self))
  else if existsb (String.eqb name) class_body then Ok (Member name)
  else if builtin name then Ok (Builtin name)
  else match __getattr__ self name with
       | Ok f => Ok (Field f)
       | Raise e => Raise e
       end.

End QbFields.

(** ** Model classes and entity classes *)

(** What a model field carries: its annotation, its description and the
    metadata attached to it. *)
Record Metadata : Type := {
  is_attribute : option bool;
  database_alias : option (option string);
  subscriptable : option bool
}.

Record FieldInfo : Type := {
  annotation : option pytype;
  description : option string;
  metadata : Metadata
}.

(** Modelled from the spec: [aiida.common.pydantic.get_metadata(field, key,
    default)], the per-field metadata lookup, which lives outside this
    module.  It gives what the field's metadata stores under [key], and
    [default] when the key is absent. *)
Definition get_metadata {A : Type} (field : FieldInfo)
    (key : Metadata -> option A) (default : A) : A :=
  match key (metadata field) with
  | Some v => v
  | None => default
  end.

(** A class used as a [Model]: its identity, the identities along its
    [__mro__] (itself first) and its [model_fields]. *)
Record ModelClass : Type := {
  model_id : nat;
  model_mro : list nat;
  model_fields : Dict.t FieldInfo
}.

Definition issubclass (c c' : ModelClass) : bool :=
  existsb (Nat.eqb (model_id c')) (model_mro c).

(** [object] has identity 0 and [pydantic.BaseModel] identity 1. *)
Definition BaseModel : ModelClass :=
  {| model_id := 1; model_mro := [1; 0]; model_fields := [] |}.

(** The value found under the name [fields]: a registry, [None], or
    anything else. *)
Inductive fields_attr : Type :=
| IsQbFields (r : QbFields.t)
| IsNone
| NotQbFields.

(** An entity class: its identity, its name, the entries [Model] and
    [fields] of its own [__dict__], and the rest of its [__mro__].  What is
    stored under [Model] is taken to be a class. *)
#[local] Unset Elimination Schemes.
Inductive Class : Type := Build_Class {
  class_id : nat;
  __name__ : string;
  dict_Model : option ModelClass;
  dict_fields : option fields_attr;
  mro_tail : list Class
}.
#[local] Set Elimination Schemes.

Definition __mro__ (cls : Class) : list Class := cls :: mro_tail cls.

(** [a is b] *)
Definition is_ (a b : Class) : bool := (class_id a =? class_id b)%nat.

(** Attribute lookup along the [__mro__]. *)
Fixpoint first_some {A B : Type} (f : A -> option B) (l : list A) : option B :=
  match l with
  | [] => None
  | x :: l' => match f x with Some y => Some y | None => first_some f l' end
  end.

(** [getattr(cls, 'Model', None)] *)
Definition getattr_Model (cls : Class) : option ModelClass :=
  first_some dict_Model (__mro__ cls).

(** [getattr(cls, 'fields', None)] *)
Definition getattr_fields (cls : Class) : option fields_attr :=
  first_some dict_fields (__mro__ cls).

Module EntityFieldMeta.

(** [[base.Model for base in bases if hasattr(base, 'Model')]] *)
Definition parent_models (bases : list Class) : list ModelClass :=
  flat_map (fun base => match getattr_Model base with
                        | Some m => [m]
                        | None => []
                        end) bases.

(** The bases of the [Model] that [__new__] synthesises around the
    declared one. *)
Definition Model_bases (declared : ModelClass) (bases : list Class)
    : list ModelClass :=
  match parent_models bases with
  | [] => [declared; BaseModel]
  | pm => declared :: pm
  end.

Section New.

(** [type('Model', bases, {})] and [super().__new__(cls, name, bases,
    classdict)] belong to the interpreter and to the model library. *)
Variable type_Model : list ModelClass -> result ModelClass.
Variable type_new :
  string -> list Class -> option ModelClass -> option fields_attr -> result Class.

Definition __new__ (name : string) (bases : list Class)
    (classdict_Model : option ModelClass)
    (classdict_fields : option fields_attr) : result Class :=
  match classdict_Model with
  | Some declared =>
      match type_Model (Model_bases declared bases) with
      | Ok model => type_new name bases (Some model) classdict_fields
      | Raise e => Raise e
      end
  | None => type_new name bases None classdict_fields
  end.

End New.

(** [issubclass(b.Model, base.Model)] for two classes that have a Model. *)
Definition Model_issubclass (b base : Class) : bool :=
  match getattr_Model b, getattr_Model base with
  | Some m, Some m' => issubclass m m'
  | _, _ => false
  end.

(** The bases in the [__mro__], other than [cls], with a [Model] of their
    own that derives from [BaseModel]. *)
Definition cls_bases_with_model (cls : Class) : list Class :=
  filter (fun base =>
            negb (is_ base cls) &&
            match dict_Model base with
            | Some m => issubclass m BaseModel
            | None => false
            end)
         (__mro__ cls).

(** Those of them whose [Model] no other one's [Model] derives from.  The
    source builds a set; the [__mro__] holds no class twice. *)
Definition cls_bases_with_model_leaves (cls : Class) : list Class :=
  let bs := cls_bases_with_model cls in
  filter (fun base =>
            forallb (fun b => negb (Model_issubclass b base))
                    (filter (fun b => negb (is_ b base)) bs))
         bs.

(** [{base.Model for base in cls_bases_with_model_leaves}], or
    [{BaseModel}] when that is empty. *)
Definition cls_model_bases (cls : Class) : list ModelClass :=
  match flat_map (fun base => match getattr_Model base with
                              | Some m => [m]
                              | None => []
                              end)
                 (cls_bases_with_model_leaves cls) with
  | [] => [BaseModel]
  | ms => ms
  end.

(** The field built for one item of [model_fields]. *)
Definition make_field (key : string) (field : FieldInfo) : QbField.t :=
  let field_cls :=
    if get_metadata field is_attribute false
    then QbField.QbAttrField else QbField.QbField in
  QbField.__init__ field_cls key
    (get_metadata field database_alias None)
    (annotation field)
    (description field)
    (get_metadata field subscriptable false).

(** The loop over [cls.Model.model_fields.items()]. *)
Definition collect (model : ModelClass) : Dict.t QbField.t :=
  fold_left
    (fun fields (item : string * FieldInfo) =>
       Dict.set (fst item) (make_field (fst item) (snd item)) fields)
    (model_fields model) [].

(** [{key: fields[key] for key in keys}] *)
Fixpoint comprehension (fields : Dict.t QbField.t) (keys : list string)
    (acc : Dict.t QbField.t) : result (Dict.t QbField.t) :=
  match keys with
  | [] => Ok acc
  | key :: keys' =>
      match Dict.getitem key fields with
      | Ok f => comprehension fields keys' (Dict.set key f acc)
      | Raise e => Raise e
      end
  end.

(** [__init__] returns the class with its [fields] attribute assigned.
    The set [cls_model_bases] is computed when the class has a [Model] of
    its own, and nothing is done with it. *)
Definition __init__ (cls : Class) : result Class :=
  match getattr_fields cls with
  | Some NotQbFields => Raise ValueError
  | _ =>
      let fields :=
        match getattr_Model cls with
        | Some model =>
            if issubclass model BaseModel then
              let cls_model_bases :=
                match dict_Model cls with
                | Some _ => cls_model_bases cls
                | None => []
                end in
              collect model
            else []
        | None => []
        end in
      match comprehension fields (sorted (Dict.keys fields)) [] with
      | Ok d =>
          Ok (Build_Class (class_id cls) (__name__ cls) (dict_Model cls)
                (Some (IsQbFields (QbFields.__init__ (Some d))))
                (mro_tail cls))
      | Raise e => Raise e
      end
  end.

End EntityFieldMeta.

(** The dictionary [fields] that [EntityFieldMeta.__init__] fills before
    it sorts: the fields collected from the class's Model, if it has one
    that derives from [BaseModel]. *)
Definition collected_fields (cls : Class) : Dict.t QbField.t :=
  match getattr_Model cls with
  | Some model =>
      if issubclass model BaseModel then EntityFieldMeta.collect model else []
  | None => []
  end.

(** Truth value of an object in a boolean context.  Neither [QbField] nor
    [QbFieldFilters] defines [__bool__] or [__len__], so their instances
    are true. *)
Definition truthy (x : pyval) : bool :=
  match x with
  | PNone => false
  | PBool b => b
  | PInt z => negb (z =? 0)%Z
  | PStr s => negb (s =? "")%string
  | PField _ => true
  | PList xs => match xs with [] => false | _ => true end
  | PDict d => match d with [] => false | _ => true end
  end.

Definition truth (o : pyobj) : bool :=
  match o with
  | Filters _ => true
  | Value v => truthy v
  end.

(** Whether a dictionary takes two fields for the same key: equal hashes
    and a true [==]. *)
Definition same_dict_key (hash : string * string -> Z) (f1 f2 : QbField.t)
    : bool :=
  (QbField.__hash__ hash f1 =? QbField.__hash__ hash f2)%Z
  && pyval_eqb (PField f1) (PField f2).

(** ** Expressions, specifications and examples that the properties use *)

(** What one round of the loop in [add_filters] does to [self.filters]. *)
Definition triple_step (d : Dict.t pyval) (t : QbField.t * string * pyval)
    : Dict.t pyval :=
  let '(field, comparator, value) := t in
  let q := QbField.qb_field field in
  match Dict.get q d with
  | Some old =>
      Dict.set "and"
        (PList [PDict [(q, old)]; PDict [(q, PDict [(comparator, value)])]])
        (Dict.remove q d)
  | None => Dict.set q (PDict [(comparator, value)]) d
  end.


(** The expression [(a & b) & c]. *)
Definition and_chain (a b c : ref) : M ref :=
  r <- QbFieldFilters.__and__ a (Filters b) ;;
  QbFieldFilters.__and__ r (Filters c).



(** Python's [a < b] on strings. *)
Definition str_lt (a b : string) : Prop := (a <? b)%string = true.

(** ** Example fields and mappings *)

(** [QbField('pk', 'id', dtype=int)] *)
Definition pk : QbField.t :=
  QbField.__init__ QbField.QbField "pk" (Some "id") (Some (TyClass "int"))
    (Some "") false.

(** [QbField('pk', 'id', dtype=str, doc='primary key')] *)
Definition pk_as_str : QbField.t :=
  QbField.__init__ QbField.QbField "pk" (Some "id") (Some (TyClass "str"))
    (Some "primary key") false.

(** [QbField('uuid', dtype=str)] *)
Definition uuid : QbField.t :=
  QbField.__init__ QbField.QbField "uuid" None (Some (TyClass "str"))
    (Some "") false.

(** [QbAttrField('value', subscriptable=True)] *)
Definition attr_value : QbField.t :=
  QbField.__init__ QbField.QbAttrField "value" None None (Some "") true.

Definition id_eq_1 : Dict.t pyval := [("id", PDict [("==", PInt 1)])].
Definition id_ne_2 : Dict.t pyval := [("id", PDict [("!=", PInt 2)])].
Definition id_gt_3 : Dict.t pyval := [("id", PDict [(">", PInt 3)])].

(** ** Example classes *)

Definition plain_info (a : pytype) : FieldInfo :=
  {| annotation := Some a;
     description := None;
     metadata := {| is_attribute := None;
                    database_alias := None;
                    subscriptable := None |} |}.

Definition plain_field (key : string) (a : pytype) : QbField.t :=
  QbField.__init__ QbField.QbField key None (Some a) None false.

Definition object_class : Class := Build_Class 100 "object" None None [].

(** [class A: class Model(BaseModel): pk: int] *)
Definition M_A : ModelClass :=
  {| model_id := 2; model_mro := [2; 1; 0];
     model_fields := [("pk", plain_info (TyClass "int"))] |}.

(** [A.Model], that is [type('Model', (M_A, BaseModel), {})] *)
Definition A_Model : ModelClass :=
  {| model_id := 3; model_mro := [3; 2; 1; 0];
     model_fields := [("pk", plain_info (TyClass "int"))] |}.

(** [A] as [__new__] returns it, and as [__init__] leaves it. *)
Definition A_new : Class :=
  Build_Class 101 "A" (Some A_Model) None [object_class].

Definition A : Class :=
  Build_Class 101 "A" (Some A_Model)
    (Some (IsQbFields
             {| QbFields._fields := [("pk", plain_field "pk" (TyClass "int"))] |}))
    [object_class].

(** [class B(A): class Model(BaseModel): label: str]; the declared Model
    does not derive from [A.Model]. *)
Definition M_B : ModelClass :=
  {| model_id := 4; model_mro := [4; 1; 0];
     model_fields := [("label", plain_info (TyClass "str"))] |}.

(** [B.Model], that is [type('Model', (M_B, A.Model), {})] *)
Definition B_Model : ModelClass :=
  {| model_id := 5; model_mro := [5; 4; 3; 2; 1; 0];
     model_fields := [("pk", plain_info (TyClass "int"));
                      ("label", plain_info (TyClass "str"))] |}.

Definition B_new : Class :=
  Build_Class 102 "B" (Some B_Model) None [A; object_class].

(** [class ZA: class Model(BaseModel): z: int; a: int] *)
Definition ZA_Model : ModelClass :=
  {| model_id := 7; model_mro := [7; 6; 1; 0];
     model_fields := [("z", plain_info (TyClass "int"));
                      ("a", plain_info (TyClass "int"))] |}.

Definition ZA_new : Class :=
  Build_Class 103 "ZA" (Some ZA_Model) None [object_class].

(** ** Further expressions *)

(** [r op c1 op ... op cn], left to right, for [op] one of [&] and [|]. *)
Fixpoint combine_all (op : ref -> pyobj -> M ref) (r : ref) (cs : list ref)
    : M ref :=
  match cs with
  | [] => ret r
  | c :: cs' => r' <- op r (Filters c) ;; combine_all op r' cs'
  end.

(** The expression [a & (b & c)]. *)
Definition and_right (a b c : ref) : M ref :=
  r <- QbFieldFilters.__and__ b (Filters c) ;;
  QbFieldFilters.__and__ a (Filters r).

(** The expression [(a & b) | c]. *)
Definition and_then_or (a b c : ref) : M ref :=
  r <- QbFieldFilters.__and__ a (Filters b) ;;
  QbFieldFilters.__or__ r (Filters c).

(** The query name and the comparison spec of a triple. *)
Definition triple_name (t : QbField.t * string * pyval) : string :=
  QbField.qb_field (fst (fst t)).

Definition triple_spec (t : QbField.t * string * pyval) : pyval :=
  PDict [(snd (fst t), snd t)].


(** [QbField('and')], a field whose query name is the logical key. *)
Definition field_named_and : QbField.t :=
  QbField.__init__ QbField.QbField "and" None None (Some "") false.


(** A model field with [is_attribute=True] and one with a database alias. *)
Definition attribute_info (a : pytype) : FieldInfo :=
  {| annotation := Some a;
     description := Some "an attribute";
     metadata := {| is_attribute := Some true;
                    database_alias := None;
                    subscriptable := Some true |} |}.

Definition alias_info (a : pytype) (alias : string) : FieldInfo :=
  {| annotation := Some a;
     description := None;
     metadata := {| is_attribute := None;
                    database_alias := Some (Some alias);
                    subscriptable := None |} |}.

(** [class N: class Model(BaseModel): pk: int (alias 'id'); key2: int
    (attribute)] *)
Definition N_Model : ModelClass :=
  {| model_id := 9; model_mro := [9; 8; 1; 0];
     model_fields := [("pk", alias_info (TyClass "int") "id");
                      ("key2", attribute_info (TyClass "int"))] |}.

Definition N_new : Class :=
  Build_Class 104 "N" (Some N_Model) None [object_class].

(** [class Plain: pass], and [class Sub(A): pass]. *)
Definition Plain_new : Class :=
  Build_Class 105 "Plain" None None [object_class].

Definition Sub_new : Class :=
  Build_Class 106 "Sub" None None (__mro__ A).

(** ** Statements of the specification that the code departs from *)

(** [(a & b) & c] has one ["and"] list of the three operand mappings, for
    operands that are pairwise different mappings without an ["and"]
    key. *)
Definition chain_of_distinct_is_flat (h : heap) (a b c : ref) : Prop :=
  forall da db dc,
    nth_error h a = Some da ->
    nth_error h b = Some db ->
    nth_error h c = Some dc ->
    da <> db -> da <> dc -> db <> dc ->
    Dict.contains "and" da = false ->
    Dict.contains "and" db = false ->
    Dict.contains "and" dc = false ->
    exists r h',
      and_chain a b c h = Ok (r, h') /\
      nth_error h' r = Some [("and", PList [PDict da; PDict db; PDict dc])].

(** Three triples on one query name [q]: the mapping holds the list of the
    first two specs under ["and"] and the third spec under [q]. *)
Definition third_triple_sits_beside_and
    (f : QbField.t) (op1 op2 op3 : string) (v1 v2 v3 : pyval) (h : heap)
    : Prop :=
  let q := QbField.qb_field f in
  exists r h' d,
    QbFieldFilters.__init__
      (QbFieldFilters.OfTriples [(f, op1, v1); (f, op2, v2); (f, op3, v3)]) h
    = Ok (r, h') /\
    nth_error h' r = Some d /\
    Dict.get "and" d
    = Some (PList [PDict [(q, PDict [(op1, v1)])];
                   PDict [(q, PDict [(op2, v2)])]]) /\
    Dict.get q d = Some (PDict [(op3, v3)]).

(** Attribute access and subscript access on a registry, by presence of
    the name alone. *)
Definition access_decided_by_presence
    (builtin : string -> bool) (r : QbFields.t) (n : string) : Prop :=
  match Dict.get n (QbFields._fields r) with
  | None =>
      QbFields.getattr builtin r n = Raise AttributeError /\
      QbFields.__getitem__ r n = Raise KeyError
  | Some f =>
      QbFields.getattr builtin r n = Ok (QbFields.Field f) /\
      QbFields.__getitem__ r n = Ok f
  end.

(** The mappings of [pk == uuid] and of [pk == 5]. *)
Definition id_eq_uuid : Dict.t pyval := [("id", PDict [("==", PField uuid)])].
Definition id_eq_5 : Dict.t pyval := [("id", PDict [("==", PInt 5)])].

(** A registry with a field registered under the name [_dict]. *)
Definition registry_with_dict : QbFields.t :=
  QbFields.__init__ (Some [("_dict", pk)]).

(** An interpreter that gives every object the names [__class__] and
    [__doc__]. *)
Definition some_builtins (name : string) : bool :=
  (name =? "__class__")%string || (name =? "__doc__")%string.

(** * Properties *)

(** ** Strings *)

Lemma append_length (s1 s2 : string) :
  String.length (s1 +++ s2) = String.length s1 + String.length s2.
Proof.
  induction s1 as [|c s1 IH]; simpl; [reflexivity | now rewrite IH].
Qed.

Lemma prefixed_neq (p s : string) : p <> "" -> p +++ s <> s.
Proof.
  intros Hp Heq.
  apply (f_equal String.length) in Heq.
  rewrite append_length in Heq.
  destruct p as [|c p]; [now apply Hp | simpl in Heq; lia].
Qed.

(** ** Nested field derivation *)

Lemma getitem_not_subscriptable (f : QbField.t) (s : string) :
  QbField.subscriptable f = false ->
  QbField.__getitem__ f s = Raise IndexError.
Proof.
  intros H. unfold QbField.__getitem__. now rewrite H.
Qed.

(** On a plain [QbField] the derived field is a [QbField] again and both of
    its names are the parent's with [.s] appended. *)
Lemma getitem_plain_field (f : QbField.t) (s : string) :
  QbField.__class__ f = QbField.QbField ->
  QbField.subscriptable f = true ->
  exists f',
    QbField.__getitem__ f s = Ok f' /\
    QbField.__class__ f' = QbField.QbField /\
    QbField.key f' = QbField.key f +++ "." +++ s /\
    QbField.qb_field f' = QbField.qb_field f +++ "." +++ s.
Proof.
  intros Hc Hs. unfold QbField.__getitem__. rewrite Hs. simpl.
  eexists. split; [reflexivity|].
  unfold QbField.qb_field. simpl. rewrite Hc. simpl. auto.
Qed.

(** On a [QbAttrField] the derived field is a [QbAttrField] whose stored
    name already carries the parent's prefix, so that its [qb_field]
    property prefixes a second time. *)
Lemma getitem_attr_field (f : QbField.t) (s : string) :
  QbField.__class__ f = QbField.QbAttrField ->
  QbField.subscriptable f = true ->
  exists f',
    QbField.__getitem__ f s = Ok f' /\
    QbField.__class__ f' = QbField.QbAttrField /\
    QbField.key f' = QbField.key f +++ "." +++ s /\
    QbField.qb_field f' = "attributes." +++ (QbField.qb_field f +++ "." +++ s) /\
    QbField.qb_field f' <> QbField.qb_field f +++ "." +++ s.
Proof.
  intros Hc Hs. unfold QbField.__getitem__. rewrite Hs. simpl.
  eexists. split; [reflexivity|].
  assert (E : forall x y, QbField.qb_field
            (QbField.__init__ (QbField.__class__ f) x (Some y) None (Some "") false)
            = "attributes." +++ y).
  { intros. unfold QbField.qb_field. simpl. now rewrite Hc. }
  rewrite E. repeat split; auto.
  apply prefixed_neq. discriminate.
Qed.

(** C3. Subscripting the subscriptable attribute field [value] with ["a"]
    gives an attribute field with key [value.a] whose query name is
    [attributes.attributes.value.a]: the prefix appears twice, and the query
    name is not the parent's query name followed by [.a]. *)
Theorem C3_attr_field_subscript_prefixes_twice :
  QbField.qb_field attr_value = "attributes.value" /\
  exists f',
    QbField.__getitem__ attr_value "a" = Ok f' /\
    QbField.__class__ f' = QbField.QbAttrField /\
    QbField.key f' = "value.a" /\
    QbField.qb_field f' = "attributes.attributes.value.a" /\
    QbField.qb_field f' <> QbField.qb_field attr_value +++ "." +++ "a".
Proof.
  split; [reflexivity|].
  eexists. split; [reflexivity|].
  repeat split. discriminate.
Qed.

(** C10. A field derived by subscripting has [subscriptable = False],
    [dtype = None] and [doc = ''] whatever the parent carries, and
    subscripting it again raises [IndexError]. *)
Theorem C10_derived_field_drops_metadata (f : QbField.t) (s : string) :
  QbField.subscriptable f = true ->
  exists f',
    QbField.__getitem__ f s = Ok f' /\
    QbField.subscriptable f' = false /\
    QbField.dtype f' = None /\
    QbField.doc f' = Some "" /\
    forall s', QbField.__getitem__ f' s' = Raise IndexError.
Proof.
  intros Hs. unfold QbField.__getitem__ at 1. rewrite Hs. simpl.
  eexists. split; [reflexivity|].
  repeat split.
Qed.

Lemma C10_derived_field_drops_metadata_witness :
  exists f',
    QbField.__getitem__
      (QbField.__init__ QbField.QbField "extras" None
         (Some (TyClass "dict")) (Some "node extras") true) "b" = Ok f' /\
    QbField.subscriptable f' = false /\
    QbField.dtype f' = None /\
    QbField.doc f' = Some "" /\
    forall s', QbField.__getitem__ f' s' = Raise IndexError.
Proof.
  apply (C10_derived_field_drops_metadata
           (QbField.__init__ QbField.QbField "extras" None
              (Some (TyClass "dict")) (Some "node extras") true) "b").
  reflexivity.
Defined.

(** ** The heap *)

Lemma nth_error_alloc (h : heap) (d : Dict.t pyval) :
  nth_error (h ++ [d]) (List.length h) = Some d.
Proof.
  rewrite nth_error_app2 by lia. now rewrite Nat.sub_diag.
Qed.

Lemma nth_error_alloc_old (h : heap) (d d' : Dict.t pyval) (r : ref) :
  nth_error h r = Some d -> nth_error (h ++ [d']) r = Some d.
Proof.
  intros H. rewrite nth_error_app1; [assumption|].
  apply nth_error_Some. congruence.
Qed.

Lemma replace_nth_alloc (h : heap) (d d' : Dict.t pyval) :
  replace_nth (List.length h) d' (h ++ [d]) = h ++ [d'].
Proof.
  induction h as [|x h IH]; simpl; [reflexivity | now rewrite IH].
Qed.

Lemma nth_error_replace_nth (h : heap) (r : ref) (d d' : Dict.t pyval) :
  nth_error h r = Some d -> nth_error (replace_nth r d' h) r = Some d'.
Proof.
  revert r. induction h as [|x h IH]; intros [|r] H; simpl in *;
    try discriminate; auto.
Qed.

Lemma replace_nth_twice (h : heap) (r : ref) (d d' : Dict.t pyval) :
  replace_nth r d' (replace_nth r d h) = replace_nth r d' h.
Proof.
  revert r. induction h as [|x h IH]; intros [|r]; simpl; auto.
  now rewrite IH.
Qed.

Lemma replace_nth_same (h : heap) (r : ref) (d : Dict.t pyval) :
  nth_error h r = Some d -> replace_nth r d h = h.
Proof.
  revert r. induction h as [|x h IH]; intros [|r] H; simpl in *;
    try discriminate; auto.
  - congruence.
  - now rewrite IH.
Qed.

Lemma read_ok (h : heap) (r : ref) (d : Dict.t pyval) :
  nth_error h r = Some d -> read r h = Ok (d, h).
Proof. intros H. unfold read. now rewrite H. Qed.

Lemma write_ok (h : heap) (r : ref) (d d' : Dict.t pyval) :
  nth_error h r = Some d -> write r d' h = Ok (tt, replace_nth r d' h).
Proof. intros H. unfold write. now rewrite H. Qed.

(** ** Dictionaries *)

(** ** Building a filters object from triples *)

Lemma add_filters_triples (ts : list (QbField.t * string * pyval)) :
  forall (h : heap) (r : ref) (d : Dict.t pyval),
    nth_error h r = Some d ->
    QbFieldFilters.add_filters r (QbFieldFilters.OfTriples ts) h
    = Ok (tt, replace_nth r (fold_left triple_step ts d) h).
Proof.
  induction ts as [|[[f c] v] ts IH]; intros h r d H; simpl.
  - unfold ret. now rewrite (replace_nth_same _ _ _ H).
  - simpl in IH. unfold bind at 1. unfold bind at 1.
    rewrite (read_ok _ _ _ H).
    unfold Dict.contains, Dict.pop.
    destruct (Dict.get (QbField.qb_field f) d) as [old|] eqn:G.
    + rewrite (write_ok _ _ _ _ H).
      rewrite (IH _ _ _ (nth_error_replace_nth _ _ _ _ H)).
      now rewrite replace_nth_twice.
    + rewrite (write_ok _ _ _ _ H).
      rewrite (IH _ _ _ (nth_error_replace_nth _ _ _ _ H)).
      now rewrite replace_nth_twice.
Qed.

Lemma init_of_triples (ts : list (QbField.t * string * pyval)) (h : heap) :
  QbFieldFilters.__init__ (QbFieldFilters.OfTriples ts) h
  = Ok (List.length h, h ++ [fold_left triple_step ts []]).
Proof.
  unfold QbFieldFilters.__init__, bind, new_object.
  rewrite (add_filters_triples ts _ _ _ (nth_error_alloc h [])).
  unfold ret. now rewrite replace_nth_alloc.
Qed.

Lemma init_of_dict (d : Dict.t pyval) (h : heap) :
  QbFieldFilters.__init__ (QbFieldFilters.OfDict d) h
  = Ok (List.length h, h ++ [Dict.update [] d]).
Proof.
  unfold QbFieldFilters.__init__, QbFieldFilters.add_filters, bind, new_object.
  rewrite (read_ok _ _ _ (nth_error_alloc h [])).
  rewrite (write_ok _ _ _ _ (nth_error_alloc h [])).
  unfold ret. now rewrite replace_nth_alloc.
Qed.

Lemma compare_ok (f : QbField.t) (c : string) (v : pyval) (h : heap) :
  QbFieldOps.compare f c v h
  = Ok (List.length h, h ++ [[(QbField.qb_field f, PDict [(c, v)])]]).
Proof. unfold QbFieldOps.compare. now rewrite init_of_triples. Qed.

(** C9, as stated, fails for a field whose query name is ["and"]: the
    third triple collides with the ["and"] entry that the second one wrote
    and folds it once more, leaving one doubly nested ["and"] entry; the
    list of the first two specs is not under ["and"] and the third spec is
    not under the query name. *)
Lemma C9_query_name_and_folds_again :
  ~ third_triple_sits_beside_and field_named_and "==" "!=" ">"
      (PInt 1) (PInt 2) (PInt 3) [] /\
  QbFieldFilters.__init__
    (QbFieldFilters.OfTriples
       [(field_named_and, "==", PInt 1); (field_named_and, "!=", PInt 2);
        (field_named_and, ">", PInt 3)]) []
  = Ok (0, [[("and",
              PList [PDict [("and",
                             PList [PDict [("and", PDict [("==", PInt 1)])];
                                    PDict [("and", PDict [("!=", PInt 2)])]])];
                     PDict [("and", PDict [(">", PInt 3)])]])]]).
Proof.
  split; [|reflexivity].
  intros [r [h' [d [Hrun [Hd [Hand Hq]]]]]].
  vm_compute in Hrun. inversion Hrun; subst.
  vm_compute in Hd. inversion Hd; subst.
  vm_compute in Hq. discriminate.
Qed.

(** C9, amended. Three triples on one query name [q] other than ["and"]:
    the second folds with the first under ["and"], the third is stored
    under [q] beside ["and"]; a fourth would overwrite the ["and"] entry,
    losing the first two specs. *)
Theorem C9_fold_applies_to_first_collision_only
    (f1 f2 f3 : QbField.t) (q op1 op2 op3 : string) (v1 v2 v3 : pyval)
    (h : heap) :
  QbField.qb_field f1 = q ->
  QbField.qb_field f2 = q ->
  QbField.qb_field f3 = q ->
  q <> "and" ->
  QbFieldFilters.__init__
    (QbFieldFilters.OfTriples [(f1, op1, v1); (f2, op2, v2); (f3, op3, v3)]) h
  = Ok (List.length h,
        h ++ [[("and", PList [PDict [(q, PDict [(op1, v1)])];
                              PDict [(q, PDict [(op2, v2)])]]);
               (q, PDict [(op3, v3)])]])
  /\
  forall (f4 : QbField.t) (op4 : string) (v4 : pyval),
    QbField.qb_field f4 = q ->
    QbFieldFilters.__init__
      (QbFieldFilters.OfTriples
         [(f1, op1, v1); (f2, op2, v2); (f3, op3, v3); (f4, op4, v4)]) h
    = Ok (List.length h,
          h ++ [[("and", PList [PDict [(q, PDict [(op3, v3)])];
                                PDict [(q, PDict [(op4, v4)])]])]]).
Proof.
  intros H1 H2 H3 Hq.
  assert (Hand : ("and" =? q)%string = false)
    by (apply String.eqb_neq; congruence).
  split; [|intros f4 op4 v4 H4]; rewrite init_of_triples;
    unfold triple_step; cbn -[String.eqb];
    rewrite ?H1, ?H2, ?H3, ?H4;
    repeat (cbn -[String.eqb]; rewrite ?String.eqb_refl, ?Hand);
    reflexivity.
Qed.

(** ** Equality of filter mappings *)

Lemma nodupb_NoDup (l : list string) : nodupb l = true -> NoDup l.
Proof.
  induction l as [|x l IH]; simpl; intros H; constructor.
  - apply andb_prop in H. destruct H as [H _].
    intros Hin. apply negb_true_iff in H.
    assert (existsb (String.eqb x) l = true) as E.
    { apply existsb_exists. exists x. split; [assumption | apply String.eqb_refl]. }
    congruence.
  - apply IH. now apply andb_prop in H.
Qed.

Lemma get_Some_In {V} (d : Dict.t V) (k : string) (v : V) :
  Dict.get k d = Some v -> In (k, v) d.
Proof.
  induction d as [|[k' v'] d IH]; simpl; [discriminate|].
  destruct (k' =? k)%string eqn:E; intros H.
  - apply String.eqb_eq in E. inversion H. subst. now left.
  - right. now apply IH.
Qed.

Lemma In_get_NoDup {V} (d : Dict.t V) (k : string) (v : V) :
  NoDup (map fst d) -> In (k, v) d -> Dict.get k d = Some v.
Proof.
  induction d as [|[k' v'] d IH]; simpl; intros Hnd Hin; [contradiction|].
  inversion Hnd as [|? ? Hnotin Hnd']; subst.
  destruct Hin as [Heq | Hin].
  - inversion Heq; subst. now rewrite String.eqb_refl.
  - destruct (k' =? k)%string eqn:E.
    + apply String.eqb_eq in E. subst k'.
      exfalso. apply Hnotin. change k with (fst (k, v)). now apply in_map.
    + now apply IH.
Qed.

Lemma In_key_value {V} (d : Dict.t V) (k : string) :
  In k (map fst d) -> exists v, In (k, v) d.
Proof.
  intros H. apply in_map_iff in H. destruct H as [[k' v] [E H]].
  simpl in E. subst. now exists v.
Qed.

Lemma items_in_spec (eqb : pyval -> pyval -> bool) (d2 d : Dict.t pyval) :
  items_in eqb d2 d = true <->
  forall k v, In (k, v) d -> exists w, Dict.get k d2 = Some w /\ eqb v w = true.
Proof.
  induction d as [|[k v] d IH]; simpl.
  - split; [intros _ ? ? [] | reflexivity].
  - rewrite andb_true_iff, IH. split.
    + intros [H1 H2] k' v' [E | Hin]; [|now apply H2].
      inversion E; subst.
      destruct (Dict.get k' d2) as [w|]; [|discriminate]. now exists w.
    + intros H. split.
      * destruct (H k v (or_introl eq_refl)) as [w [G E]]. now rewrite G.
      * intros k' v' Hin. apply H. now right.
Qed.

(** Looking the items of one dictionary up in the other can be turned
    around when both have as many keys. *)
Lemma items_in_swap (eqb1 eqb2 : pyval -> pyval -> bool) (d1 d2 : Dict.t pyval) :
  NoDup (map fst d1) -> NoDup (map fst d2) ->
  List.length d1 = List.length d2 ->
  (forall k v w, In (k, v) d1 -> In (k, w) d2 ->
                 eqb1 v w = true -> eqb2 w v = true) ->
  items_in eqb1 d2 d1 = true -> items_in eqb2 d1 d2 = true.
Proof.
  intros N1 N2 Hlen Hconv H. rewrite items_in_spec in *.
  assert (Hincl : incl (map fst d1) (map fst d2)).
  { intros k Hk. destruct (In_key_value _ _ Hk) as [v Hv].
    destruct (H k v Hv) as [w [G _]].
    apply get_Some_In in G. change k with (fst (k, w)). now apply in_map. }
  assert (Hincl' : incl (map fst d2) (map fst d1)).
  { apply NoDup_length_incl; auto. rewrite !length_map. lia. }
  intros k w Hw.
  assert (Hk : In k (map fst d1)).
  { apply Hincl'. change k with (fst (k, w)). now apply in_map. }
  destruct (In_key_value _ _ Hk) as [v Hv].
  exists v. split; [now apply In_get_NoDup|].
  destruct (H k v Hv) as [w' [G E]].
  rewrite (In_get_NoDup _ _ _ N2 Hw) in G. inversion G; subst w'.
  now apply (Hconv k v w).
Qed.

Lemma pyval_eqb_field_r (x : pyval) (f : QbField.t) :
  pyval_eqb x (PField f) = true.
Proof. destruct x; reflexivity. Qed.

Lemma wf_dict_inv (d : Dict.t pyval) :
  wf_val (PDict d) = true ->
  NoDup (map fst d) /\ forall k v, In (k, v) d -> wf_val v = true.
Proof.
  simpl. intros H. apply andb_prop in H. destruct H as [H1 H2]. split.
  - now apply nodupb_NoDup.
  - intros k v Hin. rewrite forallb_forall in H2. apply (H2 (k, v) Hin).
Qed.

Lemma pyval_eqb_refl (x : pyval) : wf_val x = true -> pyval_eqb x x = true.
Proof.
  induction x as [ | b | z | s | f | xs IH | d IH] using pyval_ind;
    intros Hwf; simpl; auto.
  - apply Bool.eqb_reflx.
  - apply Z.eqb_refl.
  - apply String.eqb_refl.
  - simpl in Hwf. induction xs as [|x xs IHxs]; simpl; [reflexivity|].
    simpl in Hwf. apply andb_prop in Hwf. destruct Hwf as [Hx Hxs].
    inversion IH; subst. rewrite H1 by assumption. simpl. now apply IHxs.
  - rewrite Nat.eqb_refl. simpl.
    destruct (wf_dict_inv _ Hwf) as [Hnd Hwfv].
    apply items_in_spec. intros k v Hin. exists v. split.
    + now apply In_get_NoDup.
    + rewrite Forall_forall in IH. apply (IH (k, v) Hin). now apply (Hwfv k).
Qed.

Lemma pyval_eqb_sym (x : pyval) :
  forall y, wf_val x = true -> wf_val y = true ->
            pyval_eqb x y = pyval_eqb y x.
Proof.
  induction x as [ | b | z | s | f | xs IH | d IH] using pyval_ind;
    intros y Hx Hy.
  - destruct y; reflexivity.
  - destruct y; try reflexivity; simpl.
    + now destruct b, b0.
    + apply Z.eqb_sym.
  - destruct y; try reflexivity; simpl; apply Z.eqb_sym.
  - destruct y; try reflexivity; simpl. apply String.eqb_sym.
  - simpl. symmetry. apply pyval_eqb_field_r.
  - destruct y as [ | | | | | ys | ]; try reflexivity. simpl.
    simpl in Hx, Hy. revert ys Hy.
    induction xs as [|x xs IHxs]; intros [|y ys] Hy; simpl; try reflexivity.
    simpl in Hx, Hy.
    apply andb_prop in Hx. destruct Hx as [Hx Hxs].
    apply andb_prop in Hy. destruct Hy as [Hy Hys].
    inversion IH; subst.
    rewrite (H1 y Hx Hy). f_equal. now apply IHxs.
  - destruct y as [ | | | | | | d2]; try reflexivity.
    destruct (wf_dict_inv _ Hx) as [N1 W1].
    destruct (wf_dict_inv _ Hy) as [N2 W2].
    rewrite Forall_forall in IH.
    apply Bool.eq_iff_eq_true. simpl. rewrite !andb_true_iff, !Nat.eqb_eq.
    split; intros [Hlen Hin]; split; try (symmetry; assumption).
    + apply (items_in_swap pyval_eqb pyval_eqb d d2); auto.
      intros k v w Hv Hw E.
      pose proof (IH (k, v) Hv w (W1 k v Hv) (W2 k w Hw)) as S.
      simpl in S. congruence.
    + apply (items_in_swap pyval_eqb pyval_eqb d2 d); auto.
      intros k w v Hw Hv E.
      pose proof (IH (k, v) Hv w (W1 k v Hv) (W2 k w Hw)) as S.
      simpl in S. congruence.
Qed.

Lemma dict_eqb_refl (d : Dict.t pyval) : wf_dict d = true -> dict_eqb d d = true.
Proof. apply pyval_eqb_refl. Qed.

Lemma dict_eqb_sym (d1 d2 : Dict.t pyval) :
  wf_dict d1 = true -> wf_dict d2 = true -> dict_eqb d1 d2 = dict_eqb d2 d1.
Proof. apply pyval_eqb_sym. Qed.

(** ** Combining filters *)

Lemma eq_ok (h : heap) (a b : ref) (da db : Dict.t pyval) :
  nth_error h a = Some da -> nth_error h b = Some db ->
  QbFieldFilters.__eq__ a (Filters b) h = Ok (dict_eqb da db, h).
Proof.
  intros Ha Hb. unfold QbFieldFilters.__eq__, bind.
  now rewrite (read_ok _ _ _ Ha), (read_ok _ _ _ Hb).
Qed.

(** Folding 1: an operand equal to [self] leaves [self] as the result, and
    nothing in the heap changes. *)
Lemma checks_same (h : heap) (a b : ref) (da db : Dict.t pyval) (logical : string) :
  nth_error h a = Some da -> nth_error h b = Some db ->
  dict_eqb db da = true ->
  QbFieldFilters.__checks a (Filters b) logical h = Ok (Some a, h).
Proof.
  intros Ha Hb E. unfold QbFieldFilters.__checks, bind.
  now rewrite (eq_ok _ _ _ _ _ Hb Ha), E.
Qed.

(** No folding: distinct operands, and [self] has no [logical] key. *)
Lemma checks_none (h : heap) (a b : ref) (da db : Dict.t pyval) (logical : string) :
  nth_error h a = Some da -> nth_error h b = Some db ->
  dict_eqb db da = false ->
  Dict.contains logical da = false ->
  QbFieldFilters.__checks a (Filters b) logical h = Ok (None, h).
Proof.
  intros Ha Hb E C. unfold QbFieldFilters.__checks, bind.
  rewrite (eq_ok _ _ _ _ _ Hb Ha), E, (read_ok _ _ _ Ha). now rewrite C.
Qed.

(** Folding 2: [self] holds a list under [logical]; the operand's mapping
    is appended to it in place. *)
Lemma checks_append (h : heap) (a b : ref) (da db : Dict.t pyval)
    (logical : string) (xs : list pyval) :
  nth_error h a = Some da -> nth_error h b = Some db ->
  dict_eqb db da = false ->
  Dict.get logical da = Some (PList xs) ->
  QbFieldFilters.__checks a (Filters b) logical h
  = Ok (Some a,
        replace_nth a (Dict.set logical (PList (xs ++ [PDict db])) da) h).
Proof.
  intros Ha Hb E G. unfold QbFieldFilters.__checks, bind.
  rewrite (eq_ok _ _ _ _ _ Hb Ha), E, (read_ok _ _ _ Ha).
  unfold Dict.contains. rewrite G.
  now rewrite (read_ok _ _ _ Hb), (write_ok _ _ _ _ Ha).
Qed.

Lemma wrap_ok (h : heap) (a b : ref) (da db : Dict.t pyval) (logical : string) :
  nth_error h a = Some da -> nth_error h b = Some db ->
  QbFieldFilters.wrap a (Filters b) logical h
  = Ok (List.length h, h ++ [[(logical, PList [PDict da; PDict db])]]).
Proof.
  intros Ha Hb. unfold QbFieldFilters.wrap, bind.
  rewrite (read_ok _ _ _ Ha), (read_ok _ _ _ Hb). now rewrite init_of_dict.
Qed.

(** A mapping without the key [logical] differs from one that has only
    that key. *)
Lemma dict_eqb_single_key (d : Dict.t pyval) (logical : string) (x : pyval) :
  Dict.contains logical d = false -> dict_eqb d [(logical, x)] = false.
Proof.
  intros C. unfold dict_eqb. simpl.
  destruct d as [|[k v] d]; [reflexivity|].
  destruct d as [|kv d]; [|reflexivity].
  simpl. unfold Dict.contains in C. simpl in C.
  rewrite String.eqb_sym.
  destruct (k =? logical)%string; [discriminate | reflexivity].
Qed.

(** C5. [a & a] and [a | a] return [a] itself and leave the heap as it
    was, so that [(a & a) == a] and [(a | a) == a] are true; the same holds
    for any operand structurally equal to [a]. *)
Theorem C5_combination_idempotent (h : heap) (a : ref) (d : Dict.t pyval) :
  nth_error h a = Some d ->
  wf_dict d = true ->
  QbFieldFilters.__and__ a (Filters a) h = Ok (a, h) /\
  QbFieldFilters.__or__ a (Filters a) h = Ok (a, h) /\
  (r <- QbFieldFilters.__and__ a (Filters a) ;;
   QbFieldFilters.__eq__ r (Filters a)) h = Ok (true, h) /\
  (r <- QbFieldFilters.__or__ a (Filters a) ;;
   QbFieldFilters.__eq__ r (Filters a)) h = Ok (true, h) /\
  forall (b : ref) (d' : Dict.t pyval),
    nth_error h b = Some d' ->
    wf_dict d' = true ->
    dict_eqb d d' = true ->
    QbFieldFilters.__and__ a (Filters b) h = Ok (a, h) /\
    QbFieldFilters.__or__ a (Filters b) h = Ok (a, h).
Proof.
  intros Ha Hwf.
  assert (Hand : forall b d', nth_error h b = Some d' -> dict_eqb d' d = true ->
                 QbFieldFilters.__and__ a (Filters b) h = Ok (a, h)).
  { intros b d' Hb E. unfold QbFieldFilters.__and__, bind.
    now rewrite (checks_same _ _ _ _ _ _ Ha Hb E). }
  assert (Hor : forall b d', nth_error h b = Some d' -> dict_eqb d' d = true ->
                QbFieldFilters.__or__ a (Filters b) h = Ok (a, h)).
  { intros b d' Hb E. unfold QbFieldFilters.__or__, bind.
    now rewrite (checks_same _ _ _ _ _ _ Ha Hb E). }
  pose proof (dict_eqb_refl d Hwf) as R.
  repeat split.
  - now apply (Hand a d).
  - now apply (Hor a d).
  - unfold bind at 1. rewrite (Hand a d Ha R).
    now rewrite (eq_ok _ _ _ _ _ Ha Ha), R.
  - unfold bind at 1. rewrite (Hor a d Ha R).
    now rewrite (eq_ok _ _ _ _ _ Ha Ha), R.
  - apply (Hand b d'); [assumption|]. now rewrite dict_eqb_sym.
  - apply (Hor b d'); [assumption|]. now rewrite dict_eqb_sym.
Qed.

(** C6, as stated, fails: [a = (pk == uuid)], [b = (pk == 5)] and
    [c = (pk > 3)] have pairwise different mappings without an ["and"] key,
    yet [b == a] is true, because a field compares as equal to anything;
    [a & b] is then [a] itself and [(a & b) & c] has a list of two. *)
Lemma C6_distinct_mappings_may_compare_equal :
  ~ chain_of_distinct_is_flat [id_eq_uuid; id_eq_5; id_gt_3] 0 1 2 /\
  dict_eqb id_eq_5 id_eq_uuid = true /\
  QbFieldFilters.__and__ 0 (Filters 1) [id_eq_uuid; id_eq_5; id_gt_3]
  = Ok (0, [id_eq_uuid; id_eq_5; id_gt_3]) /\
  and_chain 0 1 2 [id_eq_uuid; id_eq_5; id_gt_3]
  = Ok (3, [id_eq_uuid; id_eq_5; id_gt_3;
            [("and", PList [PDict id_eq_uuid; PDict id_gt_3])]]).
Proof.
  repeat split; try reflexivity.
  intros H.
  destruct (H id_eq_uuid id_eq_5 id_gt_3) as [r [h' [Hrun Hr]]];
    try reflexivity; try discriminate.
  vm_compute in Hrun. inversion Hrun; subst.
  vm_compute in Hr. discriminate.
Qed.

(** C6, amended. For [a], [b] with [a == b] false and [a], [c] without an
    ["and"] key, [(a & b) & c] is one new object whose mapping has the
    single key ["and"] with the three operand mappings as its list; the
    operands are left as they were. *)
Theorem C6_chained_and_stays_flat (h : heap) (a b c : ref)
    (da db dc : Dict.t pyval) :
  nth_error h a = Some da ->
  nth_error h b = Some db ->
  nth_error h c = Some dc ->
  wf_dict da = true -> wf_dict db = true ->
  dict_eqb da db = false ->
  Dict.contains "and" da = false ->
  Dict.contains "and" dc = false ->
  and_chain a b c h
  = Ok (List.length h,
        h ++ [[("and", PList [PDict da; PDict db; PDict dc])]]).
Proof.
  intros Ha Hb Hc Wa Wb Hab Ca Cc.
  unfold and_chain, bind at 1. unfold QbFieldFilters.__and__ at 1, bind at 1.
  rewrite dict_eqb_sym in Hab by assumption.
  rewrite (checks_none _ _ _ _ _ _ Ha Hb Hab Ca).
  rewrite (wrap_ok _ _ _ _ _ _ Ha Hb).
  set (R := [("and", PList [PDict da; PDict db])]).
  unfold QbFieldFilters.__and__, bind.
  rewrite (checks_append (h ++ [R]) (List.length h) c R dc "and" [PDict da; PDict db]
             (nth_error_alloc h R) (nth_error_alloc_old _ _ _ _ Hc)
             (dict_eqb_single_key _ _ _ Cc) eq_refl).
  unfold ret. now rewrite replace_nth_alloc.
Qed.




(** C4. Two fields with the same key and query name, whatever their dtype
    and doc, compare equal and hash identically: [f1 == f2] evaluates to an
    object that is true, [==] between them counts as true wherever values
    are compared, their hashes agree for any hash of the pair of names, and
    so a dictionary takes them for the same key.  Neither the comparison
    nor the hash looks at dtype or doc. *)
Theorem C4_same_names_compare_equal_and_hash_alike
    (hash : string * string -> Z) (f1 f2 : QbField.t) (h : heap) :
  QbField.key f1 = QbField.key f2 ->
  QbField.qb_field f1 = QbField.qb_field f2 ->
  (exists o h', QbFieldOps.eq_expr f1 f2 h = Ok (o, h') /\ truth o = true) /\
  pyval_eqb (PField f1) (PField f2) = true /\
  QbField.__hash__ hash f1 = QbField.__hash__ hash f2 /\
  same_dict_key hash f1 f2 = true.
Proof.
  intros Hk Hq.
  assert (Hh : QbField.__hash__ hash f1 = QbField.__hash__ hash f2)
    by (unfold QbField.__hash__; now rewrite Hk, Hq).
  split; [|split; [reflexivity|split; [exact Hh|]]].
  - unfold QbFieldOps.eq_expr, QbFieldOps.__eq__, bind.
    rewrite compare_ok. eexists. eexists. split; reflexivity.
  - unfold same_dict_key. rewrite Hh, Z.eqb_refl. reflexivity.
Qed.

Lemma C4_same_names_compare_equal_and_hash_alike_witness :
  (QbField.dtype pk <> QbField.dtype pk_as_str /\
   QbField.doc pk <> QbField.doc pk_as_str) /\
  (exists o h', QbFieldOps.eq_expr pk pk_as_str [] = Ok (o, h') /\
                truth o = true) /\
  pyval_eqb (PField pk) (PField pk_as_str) = true /\
  QbField.__hash__
    (fun p => Z.of_nat (String.length (fst p) + String.length (snd p))) pk
  = QbField.__hash__
      (fun p => Z.of_nat (String.length (fst p) + String.length (snd p)))
      pk_as_str /\
  same_dict_key
    (fun p => Z.of_nat (String.length (fst p) + String.length (snd p)))
    pk pk_as_str = true.
Proof.
  split; [split; discriminate|].
  apply (C4_same_names_compare_equal_and_hash_alike
           (fun p => Z.of_nat (String.length (fst p) + String.length (snd p)))
           pk pk_as_str []); reflexivity.
Defined.

(** ** The registry *)

(** C7, as stated, fails: [_dict] is a name of no registered field of the
    empty registry, yet [r._dict] does not raise: ordinary lookup finds the
    property and returns a copy of the mapping.  And with a field registered
    under [_dict], [r._dict] is still that copy and not the field. *)
Lemma C7_dict_is_found_before_the_registry :
  ~ access_decided_by_presence (fun _ => false) (QbFields.__init__ None) "_dict" /\
  QbFields.getattr (fun _ => false) (QbFields.__init__ None) "_dict"
  = Ok (QbFields.Copy []) /\
  ~ access_decided_by_presence (fun _ => false) registry_with_dict "_dict" /\
  QbFields.__getitem__ registry_with_dict "_dict" = Ok pk /\
  QbFields.getattr (fun _ => false) registry_with_dict "_dict"
  = Ok (QbFields.Copy [("_dict", pk)]).
Proof.
  repeat split; try reflexivity.
  - unfold access_decided_by_presence. simpl. intros [H _]. discriminate.
  - unfold access_decided_by_presence. simpl. intros [H _]. discriminate.
Qed.

(** C7, amended. For a name [n] that ordinary attribute lookup does not
    find: if [n] is absent from the registry, [r.n] raises [AttributeError]
    and [r[n]] raises [KeyError]; if it is present, both return the
    registered field. *)
Theorem C7_registry_lookup_by_name
    (builtin : string -> bool) (r : QbFields.t) (n : string) :
  QbFields.found_normally builtin n = false ->
  match Dict.get n (QbFields._fields r) with
  | None =>
      QbFields.__contains__ r n = false /\
      QbFields.getattr builtin r n = Raise AttributeError /\
      QbFields.__getitem__ r n = Raise KeyError
  | Some f =>
      QbFields.__contains__ r n = true /\
      QbFields.getattr builtin r n = Ok (QbFields.Field f) /\
      QbFields.__getitem__ r n = Ok f
  end.
Proof.
  unfold QbFields.found_normally. intros H.
  apply orb_false_iff in H. destruct H as [H Hb].
  apply orb_false_iff in H. destruct H as [Hf Hc].
  assert (Hd : (n =? "_dict")%string = false).
  { destruct (n =? "_dict")%string eqn:E; [|reflexivity].
    apply String.eqb_eq in E. subst n. discriminate Hc. }
  unfold QbFields.getattr. rewrite Hf, Hd, Hc, Hb.
  unfold QbFields.__contains__, QbFields.__getattr__, QbFields.__getitem__,
    Dict.contains, Dict.getitem.
  destruct (Dict.get n (QbFields._fields r)); simpl; auto.
Qed.

Lemma C7_registry_lookup_by_name_witness :
  (QbFields.__contains__ registry_with_dict "pk" = false /\
   QbFields.getattr some_builtins registry_with_dict "pk" = Raise AttributeError /\
   QbFields.__getitem__ registry_with_dict "pk" = Raise KeyError).
Proof.
  apply (C7_registry_lookup_by_name some_builtins registry_with_dict "pk").
  reflexivity.
Defined.

(** ** Sorting field names *)

Lemma str_lt_compare (a b : string) : str_lt a b <-> String.compare a b = Lt.
Proof.
  unfold str_lt, String.ltb. destruct (String.compare a b); split;
    intros H; try reflexivity; discriminate.
Qed.

Lemma str_lt_trans (a b c : string) : str_lt a b -> str_lt b c -> str_lt a c.
Proof.
  rewrite !str_lt_compare. intros H1 H2.
  apply String_as_OT.cmp_lt. apply String_as_OT.cmp_lt in H1, H2.
  eapply String_as_OT.lt_trans; eassumption.
Qed.

Lemma str_lt_irrefl (a : string) : ~ str_lt a a.
Proof.
  rewrite str_lt_compare. intros H.
  apply String_as_OT.cmp_lt in H.
  apply String_as_OT.lt_not_eq in H. now apply H.
Qed.

Lemma str_lt_total (a b : string) :
  (a <? b)%string = false -> a <> b -> str_lt b a.
Proof.
  unfold String.ltb. intros H Hne. apply str_lt_compare.
  rewrite String.compare_antisym.
  destruct (String.compare a b) eqn:E; simpl; try reflexivity; try discriminate.
  apply String.compare_eq_iff in E. contradiction.
Qed.

Lemma insert_sorted_perm (x : string) (l : list string) :
  Permutation (x :: l) (insert_sorted x l).
Proof.
  induction l as [|y l IH]; simpl; [reflexivity|].
  destruct (x <? y)%string; [reflexivity|].
  rewrite perm_swap. now constructor.
Qed.

Lemma insert_sorted_sorted (x : string) (l : list string) :
  StronglySorted str_lt l -> ~ In x l ->
  StronglySorted str_lt (insert_sorted x l).
Proof.
  induction l as [|y l IH]; simpl; intros Hs Hx.
  - constructor; constructor.
  - apply StronglySorted_inv in Hs. destruct Hs as [Hs Hy].
    destruct (x <? y)%string eqn:E.
    + constructor; [now constructor|].
      constructor; [exact E|].
      eapply Forall_impl; [|exact Hy].
      intros z Hz. now apply (str_lt_trans x y z).
    + constructor.
      * apply IH; [assumption | tauto].
      * assert (Hyx : str_lt y x) by (apply str_lt_total; [assumption | intros ->; apply Hx; now left]).
        rewrite Forall_forall in *. intros z Hz.
        apply (Permutation_in _ (Permutation_sym (insert_sorted_perm x l))) in Hz.
        destruct Hz as [<- | Hz]; [assumption | now apply Hy].
Qed.

Lemma fold_insert_sorted (l : list string) :
  forall acc,
    StronglySorted str_lt acc -> NoDup (l ++ acc) ->
    StronglySorted str_lt (fold_left (fun a x => insert_sorted x a) l acc) /\
    Permutation (l ++ acc) (fold_left (fun a x => insert_sorted x a) l acc).
Proof.
  induction l as [|x l IH]; simpl; intros acc Hs Hnd.
  - split; [assumption | reflexivity].
  - inversion Hnd as [|? ? Hx Hnd']; subst.
    assert (Hnd2 : NoDup (l ++ insert_sorted x acc)).
    { apply (Permutation_NoDup (l := l ++ x :: acc)).
      - apply Permutation_app_head, insert_sorted_perm.
      - apply (Permutation_NoDup (l := x :: l ++ acc));
          [apply Permutation_middle | assumption]. }
    destruct (IH (insert_sorted x acc)) as [S P]; auto.
    + apply insert_sorted_sorted; [assumption|].
      intros Hin. apply Hx. apply in_or_app. now right.
    + split; [assumption|].
      rewrite <- P. rewrite Permutation_middle.
      apply Permutation_app_head, insert_sorted_perm.
Qed.

Lemma sorted_spec (l : list string) :
  NoDup l -> StronglySorted str_lt (sorted l) /\ Permutation l (sorted l).
Proof.
  intros Hnd. unfold sorted.
  destruct (fold_insert_sorted l []) as [S P].
  - constructor.
  - now rewrite app_nil_r.
  - rewrite app_nil_r in P. now split.
Qed.

(** A strictly ascending list is determined by its elements. *)
Lemma strictly_sorted_unique (l1 : list string) :
  forall l2,
    StronglySorted str_lt l1 -> StronglySorted str_lt l2 ->
    (forall x, In x l1 <-> In x l2) -> l1 = l2.
Proof.
  induction l1 as [|a l1 IH]; intros [|b l2] S1 S2 Hin.
  - reflexivity.
  - exfalso. apply (proj2 (Hin b)). now left.
  - exfalso. apply (proj1 (Hin a)). now left.
  - apply StronglySorted_inv in S1, S2.
    destruct S1 as [S1 F1], S2 as [S2 F2].
    rewrite Forall_forall in F1, F2.
    assert (a = b) as ->.
    { destruct (proj1 (Hin a) (or_introl eq_refl)) as [E | Ha]; [congruence|].
      destruct (proj2 (Hin b) (or_introl eq_refl)) as [E | Hb]; [congruence|].
      exfalso. apply (str_lt_irrefl a).
      apply (str_lt_trans a b a); [now apply F1 | now apply F2]. }
    f_equal. apply IH; auto.
    intros x. split; intros Hx.
    + destruct (proj1 (Hin x) (or_intror Hx)) as [E | H]; [|assumption].
      subst x. exfalso. apply (str_lt_irrefl b). now apply F1.
    + destruct (proj2 (Hin x) (or_intror Hx)) as [E | H]; [|assumption].
      subst x. exfalso. apply (str_lt_irrefl b). now apply F2.
Qed.

(** ** Keys of dictionaries built by assignment *)

Lemma keys_set_in {V} (k k' : string) (v : V) (d : Dict.t V) :
  In k' (Dict.keys (Dict.set k v d)) <-> k' = k \/ In k' (Dict.keys d).
Proof.
  unfold Dict.keys. induction d as [|[k0 v0] d IH]; simpl.
  - split; intros [H | H]; auto; contradiction.
  - destruct (k0 =? k)%string eqn:E; simpl.
    + apply String.eqb_eq in E. subst k0. intuition.
    + rewrite IH. intuition.
Qed.

Lemma keys_set_new {V} (k : string) (v : V) (d : Dict.t V) :
  ~ In k (Dict.keys d) -> Dict.keys (Dict.set k v d) = Dict.keys d ++ [k].
Proof.
  unfold Dict.keys. induction d as [|[k0 v0] d IH]; simpl; intros H.
  - reflexivity.
  - destruct (k0 =? k)%string eqn:E.
    + apply String.eqb_eq in E. subst k0. exfalso. apply H. now left.
    + simpl. rewrite IH; [reflexivity | tauto].
Qed.

Lemma keys_set_old {V} (k : string) (v : V) (d : Dict.t V) :
  In k (Dict.keys d) -> Dict.keys (Dict.set k v d) = Dict.keys d.
Proof.
  unfold Dict.keys. induction d as [|[k0 v0] d IH]; simpl; intros H.
  - contradiction.
  - destruct (k0 =? k)%string eqn:E; simpl; [reflexivity|].
    rewrite IH; [reflexivity|].
    destruct H as [H | H]; [|assumption].
    subst k0. now rewrite String.eqb_refl in E.
Qed.

Lemma keys_set_NoDup {V} (k : string) (v : V) (d : Dict.t V) :
  NoDup (Dict.keys d) -> NoDup (Dict.keys (Dict.set k v d)).
Proof.
  intros H. destruct (in_dec string_dec k (Dict.keys d)) as [Hin | Hnin].
  - now rewrite keys_set_old.
  - rewrite keys_set_new by assumption.
    apply (Permutation_NoDup (l := k :: Dict.keys d)).
    + apply Permutation_cons_append.
    + now constructor.
Qed.

Lemma key_has_value {V} (k : string) (d : Dict.t V) :
  In k (Dict.keys d) -> exists v, Dict.get k d = Some v.
Proof.
  unfold Dict.keys. induction d as [|[k0 v0] d IH]; simpl; intros H.
  - contradiction.
  - destruct (k0 =? k)%string eqn:E; [now exists v0|].
    apply IH. destruct H as [H | H]; [|assumption].
    subst k0. now rewrite String.eqb_refl in E.
Qed.

(** ** Field collection *)

Lemma collect_keys (model : ModelClass) :
  NoDup (Dict.keys (EntityFieldMeta.collect model)) /\
  forall k, In k (Dict.keys (EntityFieldMeta.collect model)) <->
            In k (Dict.keys (model_fields model)).
Proof.
  unfold EntityFieldMeta.collect.
  set (step := fun (fields : Dict.t QbField.t) (item : string * FieldInfo) =>
                 Dict.set (fst item)
                   (EntityFieldMeta.make_field (fst item) (snd item)) fields).
  assert (G : forall l acc,
             NoDup (Dict.keys acc) ->
             NoDup (Dict.keys (fold_left step l acc)) /\
             forall k, In k (Dict.keys (fold_left step l acc)) <->
                       In k (Dict.keys l) \/ In k (Dict.keys acc)).
  { induction l as [|[k0 f0] l IH]; intros acc Hnd.
    - split; [assumption | simpl; tauto].
    - destruct (IH (step acc (k0, f0))) as [N I].
      + now apply keys_set_NoDup.
      + change (fold_left step ((k0, f0) :: l) acc)
          with (fold_left step l (step acc (k0, f0))).
        split; [assumption|].
        intros k. rewrite I.
        assert (S : In k (Dict.keys (step acc (k0, f0))) <->
                    k = k0 \/ In k (Dict.keys acc)) by apply keys_set_in.
        rewrite S. simpl. intuition. }
  destruct (G (model_fields model) []) as [N I]; [constructor|].
  split; [assumption|].
  intros k. rewrite I. simpl. tauto.
Qed.

Lemma comprehension_ok (fields : Dict.t QbField.t) (keys : list string) :
  forall acc,
    (forall k, In k keys -> In k (Dict.keys fields)) ->
    NoDup (Dict.keys acc ++ keys) ->
    exists d,
      EntityFieldMeta.comprehension fields keys acc = Ok d /\
      Dict.keys d = Dict.keys acc ++ keys.
Proof.
  induction keys as [|k keys IH]; intros acc Hin Hnd; simpl.
  - exists acc. now rewrite app_nil_r.
  - destruct (key_has_value k fields) as [f G]; [apply Hin; now left|].
    unfold Dict.getitem. rewrite G.
    assert (Hk : ~ In k (Dict.keys acc)).
    { intros H. apply NoDup_remove_2 in Hnd. apply Hnd.
      apply in_or_app. now left. }
    destruct (IH (Dict.set k f acc)) as [d [E K]].
    + intros k' H. apply Hin. now right.
    + rewrite keys_set_new by assumption. now rewrite <- app_assoc.
    + exists d. split; [assumption|].
      rewrite K, keys_set_new by assumption. now rewrite <- app_assoc.
Qed.

Lemma registry_iter (d : Dict.t QbField.t) :
  QbFields.__iter__ (QbFields.__init__ (Some d)) = Dict.keys d.
Proof. destruct d; reflexivity. Qed.

Lemma init_unfold (cls : Class) :
  EntityFieldMeta.__init__ cls =
  match getattr_fields cls with
  | Some NotQbFields => Raise ValueError
  | _ =>
      match EntityFieldMeta.comprehension (collected_fields cls)
              (sorted (Dict.keys (collected_fields cls))) [] with
      | Ok d =>
          Ok (Build_Class (class_id cls) (__name__ cls) (dict_Model cls)
                (Some (IsQbFields (QbFields.__init__ (Some d))))
                (mro_tail cls))
      | Raise e => Raise e
      end
  end.
Proof.
  unfold EntityFieldMeta.__init__, collected_fields.
  destruct (getattr_fields cls) as [[r| |]|]; try reflexivity;
    destruct (getattr_Model cls) as [model|]; try reflexivity;
    destruct (issubclass model BaseModel); reflexivity.
Qed.

Lemma collected_fields_NoDup (cls : Class) :
  NoDup (Dict.keys (collected_fields cls)).
Proof.
  unfold collected_fields.
  destruct (getattr_Model cls) as [model|]; [|constructor].
  destruct (issubclass model BaseModel); [|constructor].
  apply collect_keys.
Qed.

(** [__init__] raises only for a class whose [fields] is not a registry,
    and then it raises [ValueError]; otherwise the class gets a registry
    that iterates over the sorted names of the collected fields. *)
Lemma init_ok (cls : Class) :
  getattr_fields cls <> Some NotQbFields ->
  exists r,
    EntityFieldMeta.__init__ cls
    = Ok (Build_Class (class_id cls) (__name__ cls) (dict_Model cls)
            (Some (IsQbFields r)) (mro_tail cls)) /\
    QbFields.__iter__ r = sorted (Dict.keys (collected_fields cls)).
Proof.
  intros Hf. rewrite init_unfold.
  destruct (sorted_spec _ (collected_fields_NoDup cls)) as [S P].
  destruct (comprehension_ok (collected_fields cls)
              (sorted (Dict.keys (collected_fields cls))) []) as [d [E K]].
  - intros k Hk. now apply (Permutation_in _ (Permutation_sym P)).
  - simpl. apply (Permutation_NoDup P), collected_fields_NoDup.
  - rewrite E. exists (QbFields.__init__ (Some d)).
    rewrite registry_iter, K. simpl.
    destruct (getattr_fields cls) as [[r| |]|]; try (split; reflexivity).
    now contradiction Hf.
Qed.

Lemma init_never_RuntimeError (cls : Class) :
  EntityFieldMeta.__init__ cls = Raise ValueError \/
  exists cls', EntityFieldMeta.__init__ cls = Ok cls'.
Proof.
  destruct (getattr_fields cls) as [[r| |]|] eqn:E.
  - right. destruct (init_ok cls) as [r' [H _]]; [congruence | eauto].
  - right. destruct (init_ok cls) as [r' [H _]]; [congruence | eauto].
  - left. rewrite init_unfold. now rewrite E.
  - right. destruct (init_ok cls) as [r' [H _]]; [congruence | eauto].
Qed.

(** C8. For a class whose Model derives from [BaseModel], construction
    attaches a registry that iterates over exactly the names of the Model's
    fields, in strictly ascending string order; another class whose Model
    declares the same names in another order iterates in the same order. *)
Theorem C8_registry_iterates_in_sorted_order (cls : Class) (model : ModelClass) :
  getattr_fields cls <> Some NotQbFields ->
  getattr_Model cls = Some model ->
  issubclass model BaseModel = true ->
  exists cls' r,
    EntityFieldMeta.__init__ cls = Ok cls' /\
    dict_fields cls' = Some (IsQbFields r) /\
    StronglySorted str_lt (QbFields.__iter__ r) /\
    (forall k, In k (QbFields.__iter__ r) <->
               In k (Dict.keys (model_fields model))) /\
    forall cls2 model2 cls2' r2,
      getattr_Model cls2 = Some model2 ->
      issubclass model2 BaseModel = true ->
      Permutation (Dict.keys (model_fields model))
                  (Dict.keys (model_fields model2)) ->
      EntityFieldMeta.__init__ cls2 = Ok cls2' ->
      dict_fields cls2' = Some (IsQbFields r2) ->
      QbFields.__iter__ r2 = QbFields.__iter__ r.
Proof.
  intros Hf Hm Hsub.
  assert (Sorted_of : forall c m,
             getattr_Model c = Some m -> issubclass m BaseModel = true ->
             StronglySorted str_lt (sorted (Dict.keys (collected_fields c))) /\
             forall k, In k (sorted (Dict.keys (collected_fields c))) <->
                       In k (Dict.keys (model_fields m))).
  { intros c m Hc Hs.
    destruct (sorted_spec _ (collected_fields_NoDup c)) as [S P].
    split; [assumption|]. intros k.
    assert (E : collected_fields c = EntityFieldMeta.collect m)
      by (unfold collected_fields; now rewrite Hc, Hs).
    rewrite <- (proj2 (collect_keys m) k), <- E.
    split; intros H.
    - now apply (Permutation_in _ (Permutation_sym P)).
    - now apply (Permutation_in _ P). }
  destruct (init_ok cls Hf) as [r [Hinit Hiter]].
  destruct (Sorted_of cls model Hm Hsub) as [S I].
  eexists. exists r. split; [exact Hinit|].
  split; [reflexivity|]. rewrite Hiter.
  split; [assumption|]. split; [assumption|].
  intros cls2 model2 cls2' r2 Hm2 Hsub2 Hperm Hinit2 Hr2.
  assert (Hf2 : getattr_fields cls2 <> Some NotQbFields).
  { intros E. rewrite init_unfold, E in Hinit2. discriminate. }
  destruct (init_ok cls2 Hf2) as [r2' [Hinit2' Hiter2]].
  rewrite Hinit2' in Hinit2. inversion Hinit2; subst cls2'.
  simpl in Hr2. inversion Hr2; subst r2'.
  rewrite Hiter2.
  destruct (Sorted_of cls2 model2 Hm2 Hsub2) as [S2 I2].
  apply strictly_sorted_unique; auto.
  intros k. rewrite I, I2. split; intros H.
  - now apply (Permutation_in _ (Permutation_sym Hperm)).
  - now apply (Permutation_in _ Hperm).
Qed.

(** C1. Class [B(A)] declares a Model that does not derive from [A.Model],
    the Model of its only leaf base [A].  [__new__] puts the declared
    Model and [A.Model] side by side as bases of a synthesised Model, and
    [__init__] returns normally with a registry: nothing is raised. *)
Theorem C1_model_missing_a_base_is_accepted :
  EntityFieldMeta.__init__ A_new = Ok A /\
  issubclass M_B A_Model = false /\
  EntityFieldMeta.cls_bases_with_model_leaves B_new = [A] /\
  EntityFieldMeta.cls_model_bases B_new = [A_Model] /\
  EntityFieldMeta.Model_bases M_B [A] = [M_B; A_Model] /\
  exists cls' r,
    EntityFieldMeta.__init__ B_new = Ok cls' /\
    dict_fields cls' = Some (IsQbFields r) /\
    QbFields.__iter__ r = ["label"; "pk"].
Proof.
  repeat split.
  eexists. eexists. split; [vm_compute; reflexivity|].
  split; reflexivity.
Qed.

Lemma C8_registry_iterates_in_sorted_order_witness :
  (getattr_fields ZA_new <> Some NotQbFields /\
   getattr_Model ZA_new = Some ZA_Model /\
   issubclass ZA_Model BaseModel = true) /\
  exists cls' r,
    EntityFieldMeta.__init__ ZA_new = Ok cls' /\
    dict_fields cls' = Some (IsQbFields r) /\
    StronglySorted str_lt (QbFields.__iter__ r) /\
    (forall k, In k (QbFields.__iter__ r) <->
               In k (Dict.keys (model_fields ZA_Model))) /\
    forall cls2 model2 cls2' r2,
      getattr_Model cls2 = Some model2 ->
      issubclass model2 BaseModel = true ->
      Permutation (Dict.keys (model_fields ZA_Model))
                  (Dict.keys (model_fields model2)) ->
      EntityFieldMeta.__init__ cls2 = Ok cls2' ->
      dict_fields cls2' = Some (IsQbFields r2) ->
      QbFields.__iter__ r2 = QbFields.__iter__ r.
Proof.
  split.
  - repeat split; [discriminate].
  - apply (C8_registry_iterates_in_sorted_order ZA_new ZA_Model);
      [discriminate | reflexivity | reflexivity].
Defined.

(** The registry of [ZA] iterates over ["a"] before ["z"]. *)
Example ZA_registry_order :
  exists cls' r,
    EntityFieldMeta.__init__ ZA_new = Ok cls' /\
    dict_fields cls' = Some (IsQbFields r) /\
    QbFields.__iter__ r = ["a"; "z"].
Proof.
  eexists. eexists. split; [vm_compute; reflexivity|]. split; reflexivity.
Qed.

Lemma C9_fold_applies_to_first_collision_only_witness :
  QbFieldFilters.__init__
    (QbFieldFilters.OfTriples
       [(pk, "==", PInt 1); (pk, "!=", PInt 2); (pk, ">", PInt 3)]) []
  = Ok (0, [[("and", PList [PDict [("id", PDict [("==", PInt 1)])];
                            PDict [("id", PDict [("!=", PInt 2)])]]);
             ("id", PDict [(">", PInt 3)])]])
  /\
  forall (f4 : QbField.t) (op4 : string) (v4 : pyval),
    QbField.qb_field f4 = "id" ->
    QbFieldFilters.__init__
      (QbFieldFilters.OfTriples
         [(pk, "==", PInt 1); (pk, "!=", PInt 2); (pk, ">", PInt 3);
          (f4, op4, v4)]) []
    = Ok (0, [[("and", PList [PDict [("id", PDict [(">", PInt 3)])];
                              PDict [("id", PDict [(op4, v4)])]])]]).
Proof.
  apply (C9_fold_applies_to_first_collision_only
           pk pk pk "id" "==" "!=" ">" (PInt 1) (PInt 2) (PInt 3) []);
    try reflexivity.
  discriminate.
Defined.

Lemma C5_combination_idempotent_witness :
  QbFieldFilters.__and__ 0 (Filters 0) [id_eq_1] = Ok (0, [id_eq_1]) /\
  QbFieldFilters.__or__ 0 (Filters 0) [id_eq_1] = Ok (0, [id_eq_1]) /\
  (r <- QbFieldFilters.__and__ 0 (Filters 0) ;;
   QbFieldFilters.__eq__ r (Filters 0)) [id_eq_1] = Ok (true, [id_eq_1]) /\
  (r <- QbFieldFilters.__or__ 0 (Filters 0) ;;
   QbFieldFilters.__eq__ r (Filters 0)) [id_eq_1] = Ok (true, [id_eq_1]) /\
  forall (b : ref) (d' : Dict.t pyval),
    nth_error [id_eq_1] b = Some d' ->
    wf_dict d' = true ->
    dict_eqb id_eq_1 d' = true ->
    QbFieldFilters.__and__ 0 (Filters b) [id_eq_1] = Ok (0, [id_eq_1]) /\
    QbFieldFilters.__or__ 0 (Filters b) [id_eq_1] = Ok (0, [id_eq_1]).
Proof.
  apply (C5_combination_idempotent [id_eq_1] 0 id_eq_1); reflexivity.
Defined.

Lemma C6_chained_and_stays_flat_witness :
  and_chain 0 1 2 [id_eq_1; id_ne_2; id_gt_3]
  = Ok (3, [id_eq_1; id_ne_2; id_gt_3;
            [("and", PList [PDict id_eq_1; PDict id_ne_2; PDict id_gt_3])]]).
Proof.
  apply (C6_chained_and_stays_flat [id_eq_1; id_ne_2; id_gt_3] 0 1 2
           id_eq_1 id_ne_2 id_gt_3); reflexivity.
Defined.

(** * Further properties *)

(** ** Lookup in dictionaries built by assignment *)

Lemma get_set_eq {V} (k : string) (v : V) (d : Dict.t V) :
  Dict.get k (Dict.set k v d) = Some v.
Proof.
  induction d as [|[k' v'] d IH]; simpl.
  - now rewrite String.eqb_refl.
  - destruct (k' =? k)%string eqn:E; simpl; rewrite E; auto.
Qed.

Lemma get_set_neq {V} (k k' : string) (v : V) (d : Dict.t V) :
  k <> k' -> Dict.get k' (Dict.set k v d) = Dict.get k' d.
Proof.
  intros Hne. induction d as [|[k0 v0] d IH]; simpl.
  - apply String.eqb_neq in Hne. now rewrite Hne.
  - destruct (k0 =? k)%string eqn:E; simpl.
    + apply String.eqb_eq in E. subst k0.
      apply String.eqb_neq in Hne. now rewrite Hne.
    + now rewrite IH.
Qed.

Lemma get_absent {V} (k : string) (d : Dict.t V) :
  ~ In k (Dict.keys d) -> Dict.get k d = None.
Proof.
  intros H. destruct (Dict.get k d) as [v|] eqn:G; [|reflexivity].
  exfalso. apply H. apply get_Some_In in G.
  change k with (fst (k, v)). now apply in_map.
Qed.

Lemma get_present {V} (k : string) (v : V) (d : Dict.t V) :
  Dict.get k d = Some v -> In k (Dict.keys d).
Proof.
  intros G. apply get_Some_In in G.
  change k with (fst (k, v)). now apply in_map.
Qed.

Lemma set_absent_app {V} (k : string) (v : V) (d : Dict.t V) :
  ~ In k (Dict.keys d) -> Dict.set k v d = d ++ [(k, v)].
Proof.
  unfold Dict.keys. induction d as [|[k0 v0] d IH]; simpl; intros H.
  - reflexivity.
  - destruct (k0 =? k)%string eqn:E.
    + apply String.eqb_eq in E. subst k0. exfalso. apply H. now left.
    + rewrite IH; [reflexivity | tauto].
Qed.

(** ** Field collection, continued *)

Lemma collect_get (model : ModelClass) (k : string) :
  NoDup (Dict.keys (model_fields model)) ->
  Dict.get k (EntityFieldMeta.collect model)
  = option_map (EntityFieldMeta.make_field k) (Dict.get k (model_fields model)).
Proof.
  unfold EntityFieldMeta.collect.
  set (step := fun (fields : Dict.t QbField.t) (item : string * FieldInfo) =>
                 Dict.set (fst item)
                   (EntityFieldMeta.make_field (fst item) (snd item)) fields).
  assert (G : forall l acc,
             NoDup (Dict.keys l) ->
             Dict.get k (fold_left step l acc)
             = match Dict.get k l with
               | Some info => Some (EntityFieldMeta.make_field k info)
               | None => Dict.get k acc
               end).
  { induction l as [|[k0 f0] l IH]; intros acc Hnd; [reflexivity|].
    change (fold_left step ((k0, f0) :: l) acc)
      with (fold_left step l (step acc (k0, f0))).
    inversion Hnd as [|? ? Hk0 Hnd']; subst.
    rewrite (IH _ Hnd'). simpl.
    destruct (k0 =? k)%string eqn:E.
    - apply String.eqb_eq in E. subst k0.
      rewrite (get_absent _ _ Hk0). unfold step. simpl. apply get_set_eq.
    - destruct (Dict.get k l); [reflexivity|].
      unfold step. simpl. apply get_set_neq.
      now apply String.eqb_neq. }
  intros Hnd. rewrite (G _ [] Hnd).
  destruct (Dict.get k (model_fields model)); reflexivity.
Qed.

Lemma comprehension_get (fields : Dict.t QbField.t) (keys : list string) :
  forall acc d,
    EntityFieldMeta.comprehension fields keys acc = Ok d ->
    forall k, Dict.get k d
              = if in_dec string_dec k keys then Dict.get k fields
                else Dict.get k acc.
Proof.
  induction keys as [|k0 keys IH]; intros acc d H k; simpl in *.
  - now inversion H.
  - unfold Dict.getitem in H.
    destruct (Dict.get k0 fields) as [f|] eqn:G; [|discriminate].
    rewrite (IH _ _ H k).
    destruct (in_dec string_dec k keys) as [Hin | Hnin].
    + destruct (string_dec k0 k); [reflexivity|].
      destruct (in_dec string_dec k keys); [reflexivity | contradiction].
    + destruct (string_dec k0 k) as [-> | Hne].
      * rewrite get_set_eq. now rewrite G.
      * destruct (in_dec string_dec k keys); [contradiction|].
        now apply get_set_neq.
Qed.

(** What [__init__] attaches: a registry with the same lookups as the
    collected fields. *)
Lemma init_registry (cls : Class) :
  getattr_fields cls <> Some NotQbFields ->
  exists r,
    EntityFieldMeta.__init__ cls
    = Ok (Build_Class (class_id cls) (__name__ cls) (dict_Model cls)
            (Some (IsQbFields r)) (mro_tail cls)) /\
    forall k, Dict.get k (QbFields._fields r)
              = Dict.get k (collected_fields cls).
Proof.
  intros Hf. rewrite init_unfold.
  destruct (sorted_spec _ (collected_fields_NoDup cls)) as [S P].
  destruct (comprehension_ok (collected_fields cls)
              (sorted (Dict.keys (collected_fields cls))) []) as [d [E K]].
  - intros k Hk. now apply (Permutation_in _ (Permutation_sym P)).
  - simpl. apply (Permutation_NoDup P), collected_fields_NoDup.
  - rewrite E. exists (QbFields.__init__ (Some d)). split.
    + destruct (getattr_fields cls) as [[r| |]|]; try reflexivity.
      now contradiction Hf.
    + intros k.
      assert (F : QbFields._fields (QbFields.__init__ (Some d)) = d)
        by (destruct d; reflexivity).
      rewrite F, (comprehension_get _ _ _ _ E k).
      destruct (in_dec string_dec k _) as [Hin | Hnin]; [reflexivity|].
      simpl. symmetry. apply get_absent. intros Hk. apply Hnin.
      now apply (Permutation_in _ P).
Qed.

(** X1. For a class whose [Model], where it resolves one, is a class:
    construction raises exactly when the name [fields] resolves to
    something that is neither [None] nor a registry, and then it raises
    [ValueError]; in every other case it returns the class unchanged but
    for a registry under [fields]. *)
Theorem X1_init_raises_only_for_foreign_fields (cls : Class) :
  match getattr_fields cls with
  | Some NotQbFields => EntityFieldMeta.__init__ cls = Raise ValueError
  | _ =>
      exists r,
        EntityFieldMeta.__init__ cls
        = Ok (Build_Class (class_id cls) (__name__ cls) (dict_Model cls)
                (Some (IsQbFields r)) (mro_tail cls))
  end.
Proof.
  destruct (getattr_fields cls) as [[r0| |]|] eqn:E.
  - destruct (init_registry cls) as [r [H _]]; [congruence | eauto].
  - destruct (init_registry cls) as [r [H _]]; [congruence | eauto].
  - rewrite init_unfold. now rewrite E.
  - destruct (init_registry cls) as [r [H _]]; [congruence | eauto].
Qed.

(** X2. Every field declared by the class's Model is found in the registry
    under its name, by subscript and by attribute access alike, as the field
    built from its metadata: an attribute field exactly when [is_attribute]
    is set, with the database alias (or else the name) as stored query name,
    prefixed by [attributes.] for an attribute field, and with the
    annotation, description and [subscriptable] flag of the Model field. *)
Theorem X2_registry_holds_the_declared_field
    (cls : Class) (model : ModelClass) (k : string) (info : FieldInfo) :
  getattr_fields cls <> Some NotQbFields ->
  getattr_Model cls = Some model ->
  issubclass model BaseModel = true ->
  NoDup (Dict.keys (model_fields model)) ->
  Dict.get k (model_fields model) = Some info ->
  exists cls' r f,
    EntityFieldMeta.__init__ cls = Ok cls' /\
    dict_fields cls' = Some (IsQbFields r) /\
    QbFields.__getitem__ r k = Ok f /\
    QbFields.__getattr__ r k = Ok f /\
    QbFields.__contains__ r k = true /\
    QbField.key f = k /\
    QbField.__class__ f
    = (if get_metadata info is_attribute false
       then QbField.QbAttrField else QbField.QbField) /\
    QbField.qb_field f
    = (let raw := match get_metadata info database_alias None with
                  | Some alias => alias
                  | None => k
                  end in
       if get_metadata info is_attribute false
       then "attributes." +++ raw else raw) /\
    QbField.dtype f = annotation info /\
    QbField.doc f = description info /\
    QbField.subscriptable f = get_metadata info subscriptable false.
Proof.
  intros Hf Hm Hsub Hnd Hk.
  destruct (init_registry cls Hf) as [r [Hinit Hget]].
  assert (G : Dict.get k (QbFields._fields r)
              = Some (EntityFieldMeta.make_field k info)).
  { rewrite Hget. unfold collected_fields. rewrite Hm, Hsub.
    rewrite (collect_get _ _ Hnd), Hk. reflexivity. }
  eexists. exists r, (EntityFieldMeta.make_field k info).
  split; [exact Hinit|]. split; [reflexivity|].
  unfold QbFields.__getitem__, QbFields.__getattr__, QbFields.__contains__,
    Dict.getitem, Dict.contains. rewrite G. simpl.
  repeat split.
  unfold EntityFieldMeta.make_field, QbField.qb_field. simpl.
  destruct (get_metadata info is_attribute false); simpl;
    now destruct (get_metadata info database_alias None).
Qed.

Lemma X2_registry_holds_the_declared_field_witness :
  exists cls' r f,
    EntityFieldMeta.__init__ N_new = Ok cls' /\
    dict_fields cls' = Some (IsQbFields r) /\
    QbFields.__getitem__ r "key2" = Ok f /\
    QbFields.__getattr__ r "key2" = Ok f /\
    QbFields.__contains__ r "key2" = true /\
    QbField.key f = "key2" /\
    QbField.__class__ f = QbField.QbAttrField /\
    QbField.qb_field f = "attributes.key2" /\
    QbField.dtype f = Some (TyClass "int") /\
    QbField.doc f = Some "an attribute" /\
    QbField.subscriptable f = true.
Proof.
  apply (X2_registry_holds_the_declared_field N_new N_Model "key2"
           (attribute_info (TyClass "int"))).
  - discriminate.
  - reflexivity.
  - reflexivity.
  - repeat constructor; simpl; intuition discriminate.
  - reflexivity.
Defined.

(** X3. A class whose [fields] does not resolve to a foreign value and
    that resolves no Model, or a Model class that does not derive from
    [BaseModel], gets an empty registry: length 0, nothing to iterate,
    [KeyError] on every subscript, and [AttributeError] on attribute access
    for every name that ordinary lookup does not find. *)
Theorem X3_class_without_model_gets_empty_registry (cls : Class) :
  getattr_fields cls <> Some NotQbFields ->
  (getattr_Model cls = None \/
   exists m, getattr_Model cls = Some m /\ issubclass m BaseModel = false) ->
  exists r,
    EntityFieldMeta.__init__ cls
    = Ok (Build_Class (class_id cls) (__name__ cls) (dict_Model cls)
            (Some (IsQbFields r)) (mro_tail cls)) /\
    QbFields.__len__ r = 0 /\
    QbFields.__iter__ r = [] /\
    forall k,
      QbFields.__contains__ r k = false /\
      QbFields.__getitem__ r k = Raise KeyError /\
      forall builtin,
        QbFields.found_normally builtin k = false ->
        QbFields.getattr builtin r k = Raise AttributeError.
Proof.
  intros Hf Hm. exists (QbFields.__init__ (Some [])).
  split; [|repeat split].
  - rewrite init_unfold.
    assert (E : collected_fields cls = []).
    { unfold collected_fields.
      destruct Hm as [-> | [m [-> ->]]]; reflexivity. }
    rewrite E. simpl.
    destruct (getattr_fields cls) as [[r| |]|]; try reflexivity.
    now contradiction Hf.
  - intros builtin H. unfold QbFields.found_normally in H.
    apply orb_false_iff in H. destruct H as [H Hb].
    apply orb_false_iff in H. destruct H as [Hfld Hc].
    assert (Hd : (k =? "_dict")%string = false).
    { destruct (k =? "_dict")%string eqn:E; [|reflexivity].
      apply String.eqb_eq in E. subst k. discriminate Hc. }
    unfold QbFields.getattr. now rewrite Hfld, Hd, Hc, Hb.
Qed.

Lemma X3_class_without_model_gets_empty_registry_witness :
  exists r,
    EntityFieldMeta.__init__ Plain_new
    = Ok (Build_Class 105 "Plain" None (Some (IsQbFields r)) [object_class]) /\
    QbFields.__len__ r = 0 /\
    QbFields.__iter__ r = [] /\
    forall k,
      QbFields.__contains__ r k = false /\
      QbFields.__getitem__ r k = Raise KeyError /\
      forall builtin,
        QbFields.found_normally builtin k = false ->
        QbFields.getattr builtin r k = Raise AttributeError.
Proof.
  apply (X3_class_without_model_gets_empty_registry Plain_new).
  - discriminate.
  - left. reflexivity.
Defined.

(** X4. A subclass that declares neither a Model nor [fields] resolves its
    parent's Model and gets a registry equal to the parent's. *)
Theorem X4_subclass_without_model_gets_parents_registry
    (parent0 parent cls : Class) :
  EntityFieldMeta.__init__ parent0 = Ok parent ->
  dict_Model cls = None ->
  dict_fields cls = None ->
  mro_tail cls = __mro__ parent ->
  exists r,
    dict_fields parent = Some (IsQbFields r) /\
    EntityFieldMeta.__init__ cls
    = Ok (Build_Class (class_id cls) (__name__ cls) None
            (Some (IsQbFields r)) (mro_tail cls)).
Proof.
  intros Hp HM HF Hmro.
  rewrite init_unfold in Hp.
  assert (Hc : exists d,
             EntityFieldMeta.comprehension (collected_fields parent0)
               (sorted (Dict.keys (collected_fields parent0))) [] = Ok d /\
             parent = Build_Class (class_id parent0) (__name__ parent0)
                        (dict_Model parent0)
                        (Some (IsQbFields (QbFields.__init__ (Some d))))
                        (mro_tail parent0)).
  { destruct (EntityFieldMeta.comprehension _ _ _) as [d|e] eqn:E.
    - exists d. split; [reflexivity|].
      destruct (getattr_fields parent0) as [[r| |]|];
        inversion Hp; reflexivity.
    - destruct (getattr_fields parent0) as [[r| |]|]; discriminate. }
  destruct Hc as [d [E ->]].
  exists (QbFields.__init__ (Some d)). split; [reflexivity|].
  rewrite init_unfold.
  assert (EM : collected_fields cls = collected_fields parent0).
  { unfold collected_fields, getattr_Model, __mro__.
    rewrite Hmro. simpl. now rewrite HM. }
  assert (EF : getattr_fields cls
               = Some (IsQbFields (QbFields.__init__ (Some d)))).
  { unfold getattr_fields, __mro__. rewrite Hmro. simpl. now rewrite HF. }
  rewrite EF, EM, E, HM. reflexivity.
Qed.

Lemma X4_subclass_without_model_gets_parents_registry_witness :
  exists r,
    dict_fields A = Some (IsQbFields r) /\
    EntityFieldMeta.__init__ Sub_new
    = Ok (Build_Class 106 "Sub" None (Some (IsQbFields r)) (__mro__ A)).
Proof.
  apply (X4_subclass_without_model_gets_parents_registry A_new A Sub_new);
    reflexivity.
Defined.

(** X5. In any registry the membership test, iteration and lookup agree:
    a name is contained exactly when iteration yields it and exactly when
    subscripting succeeds; for a name that ordinary attribute lookup does
    not find, exactly when attribute access succeeds, and then with the
    same field; and the length is the number of names iterated. *)
Theorem X5_registry_membership_agrees (r : QbFields.t) (k : string) :
  (QbFields.__contains__ r k = true <-> In k (QbFields.__iter__ r)) /\
  (QbFields.__contains__ r k = true <->
   exists f, QbFields.__getitem__ r k = Ok f) /\
  (forall builtin,
      QbFields.found_normally builtin k = false ->
      forall f,
        QbFields.__getitem__ r k = Ok f <->
        QbFields.getattr builtin r k = Ok (QbFields.Field f)) /\
  QbFields.__len__ r = List.length (QbFields.__iter__ r).
Proof.
  split; [|split; [|split]].
  - unfold QbFields.__contains__, QbFields.__iter__, Dict.contains. split.
    + destruct (Dict.get k (QbFields._fields r)) as [f|] eqn:G;
        [intros _; now apply (get_present k f) | discriminate].
    + intros Hin. destruct (key_has_value _ _ Hin) as [f G]. now rewrite G.
  - unfold QbFields.__contains__, QbFields.__getitem__, Dict.contains,
      Dict.getitem. split.
    + destruct (Dict.get k (QbFields._fields r)) as [f|];
        [intros _; now exists f | discriminate].
    + intros [f H].
      destruct (Dict.get k (QbFields._fields r)); [reflexivity | discriminate].
  - intros builtin H f. unfold QbFields.found_normally in H.
    apply orb_false_iff in H. destruct H as [H Hb].
    apply orb_false_iff in H. destruct H as [Hfld Hc].
    assert (Hd : (k =? "_dict")%string = false).
    { destruct (k =? "_dict")%string eqn:E; [|reflexivity].
      apply String.eqb_eq in E. subst k. discriminate Hc. }
    unfold QbFields.getattr. rewrite Hfld, Hd, Hc, Hb.
    unfold QbFields.__getattr__, QbFields.__getitem__, Dict.getitem.
    destruct (Dict.get k (QbFields._fields r)) as [f'|]; simpl; split;
      intros E; inversion E; reflexivity.
  - unfold QbFields.__len__, QbFields.__iter__, Dict.keys.
    now rewrite length_map.
Qed.

Lemma X5_registry_membership_agrees_witness :
  QbFields.__getitem__ (QbFields.__init__ (Some [("pk", pk)])) "pk" = Ok pk <->
  QbFields.getattr some_builtins (QbFields.__init__ (Some [("pk", pk)])) "pk"
  = Ok (QbFields.Field pk).
Proof.
  exact (proj1 (proj2 (proj2
           (X5_registry_membership_agrees
              (QbFields.__init__ (Some [("pk", pk)])) "pk")))
           some_builtins eq_refl pk).
Defined.

(** ** Filters built from a dictionary *)

Lemma update_app (other : Dict.t pyval) :
  forall d,
    NoDup (Dict.keys d ++ Dict.keys other) -> Dict.update d other = d ++ other.
Proof.
  unfold Dict.update.
  induction other as [|[k v] other IH]; intros d Hnd; simpl.
  - now rewrite app_nil_r.
  - assert (Hk : ~ In k (Dict.keys d)).
    { intros H. simpl in Hnd. apply NoDup_remove_2 in Hnd. apply Hnd.
      apply in_or_app. now left. }
    rewrite (set_absent_app _ _ _ Hk), IH.
    + now rewrite <- app_assoc.
    + unfold Dict.keys in *. rewrite map_app, <- app_assoc. exact Hnd.
Qed.

Lemma get_update (other : Dict.t pyval) (k : string) :
  forall d,
    NoDup (Dict.keys other) ->
    Dict.get k (Dict.update d other)
    = match Dict.get k other with
      | Some v => Some v
      | None => Dict.get k d
      end.
Proof.
  unfold Dict.update.
  induction other as [|[k0 v0] other IH]; intros d Hnd; [reflexivity|].
  inversion Hnd as [|? ? Hk0 Hnd']; subst. simpl.
  rewrite (IH _ Hnd').
  destruct (k0 =? k)%string eqn:E.
  - apply String.eqb_eq in E. subst k0.
    rewrite (get_absent _ _ Hk0). apply get_set_eq.
  - destruct (Dict.get k other); [reflexivity|].
    apply get_set_neq. now apply String.eqb_neq.
Qed.

(** X6. A filters object built from a dictionary holds exactly that
    dictionary, keys in the same order: [QbFieldFilters(d).as_dict()] is
    [d]. *)
Theorem X6_filters_of_dict_round_trip (d : Dict.t pyval) (h : heap) :
  NoDup (Dict.keys d) ->
  (r <- QbFieldFilters.__init__ (QbFieldFilters.OfDict d) ;;
   QbFieldFilters.as_dict r) h
  = Ok (d, h ++ [d]).
Proof.
  intros Hnd. unfold bind at 1. rewrite init_of_dict.
  rewrite (update_app d []) by exact Hnd. simpl.
  unfold QbFieldFilters.as_dict.
  now rewrite (read_ok _ _ _ (nth_error_alloc h d)).
Qed.

Lemma X6_filters_of_dict_round_trip_witness :
  (r <- QbFieldFilters.__init__
          (QbFieldFilters.OfDict
             [("or", PList [PDict id_eq_1; PDict id_gt_3]);
              ("id", PDict [("!=", PInt 2)])]) ;;
   QbFieldFilters.as_dict r) []
  = Ok ([("or", PList [PDict id_eq_1; PDict id_gt_3]);
         ("id", PDict [("!=", PInt 2)])],
        [[("or", PList [PDict id_eq_1; PDict id_gt_3]);
          ("id", PDict [("!=", PInt 2)])]]).
Proof.
  apply (X6_filters_of_dict_round_trip
           [("or", PList [PDict id_eq_1; PDict id_gt_3]);
            ("id", PDict [("!=", PInt 2)])] []).
  repeat constructor; simpl; intuition discriminate.
Defined.

(** X7. [add_filters] with a dictionary overwrites: afterwards every key of
    the argument maps, in the object itself, to the argument's value, and
    every other key of the object keeps its value.  A key that was already
    present is replaced, not folded under ["and"] as a triple would be. *)
Theorem X7_add_filters_dict_overwrites
    (h : heap) (r : ref) (d other : Dict.t pyval) :
  nth_error h r = Some d ->
  NoDup (Dict.keys other) ->
  exists h' d',
    QbFieldFilters.add_filters r (QbFieldFilters.OfDict other) h
    = Ok (tt, h') /\
    nth_error h' r = Some d' /\
    forall k,
      Dict.get k d' = match Dict.get k other with
                      | Some v => Some v
                      | None => Dict.get k d
                      end.
Proof.
  intros Hr Hnd.
  exists (replace_nth r (Dict.update d other) h), (Dict.update d other).
  split; [|split].
  - unfold QbFieldFilters.add_filters, bind.
    now rewrite (read_ok _ _ _ Hr), (write_ok _ _ _ _ Hr).
  - now apply (nth_error_replace_nth _ _ d).
  - intros k. now apply get_update.
Qed.

Lemma X7_add_filters_dict_overwrites_witness :
  exists h' d',
    QbFieldFilters.add_filters 0 (QbFieldFilters.OfDict id_ne_2) [id_eq_1]
    = Ok (tt, h') /\
    nth_error h' 0 = Some d' /\
    forall k,
      Dict.get k d' = match Dict.get k id_ne_2 with
                      | Some v => Some v
                      | None => Dict.get k id_eq_1
                      end.
Proof.
  apply (X7_add_filters_dict_overwrites [id_eq_1] 0 id_eq_1 id_ne_2).
  - reflexivity.
  - repeat constructor; simpl; intuition.
Defined.

(** ** Comparisons *)



(** X9. [like] and [ilike] accept a string and nothing else: on a string
    they build [{f.qb_field: {'like': value}}], respectively ['ilike'], and
    on any other value they raise [TypeError]. *)
Theorem X9_like_accepts_strings_only (f : QbField.t) (v : pyval) (h : heap) :
  match v with
  | PStr _ =>
      QbFieldOps.like f v h
      = Ok (List.length h, h ++ [[(QbField.qb_field f, PDict [("like", v)])]]) /\
      QbFieldOps.ilike f v h
      = Ok (List.length h, h ++ [[(QbField.qb_field f, PDict [("ilike", v)])]])
  | _ =>
      QbFieldOps.like f v h = Raise TypeError /\
      QbFieldOps.ilike f v h = Raise TypeError
  end.
Proof.
  destruct v; simpl; try (split; reflexivity).
  split; apply compare_ok.
Qed.

(** ** Combination, continued *)

(** X10. Comparing or combining a filters object with a value that is not
    a filters object raises [TypeError], for [==], [&] and [|] alike. *)
Theorem X10_foreign_operand_raises_TypeError (a : ref) (v : pyval) (h : heap) :
  QbFieldFilters.__eq__ a (Value v) h = Raise TypeError /\
  QbFieldFilters.__and__ a (Value v) h = Raise TypeError /\
  QbFieldFilters.__or__ a (Value v) h = Raise TypeError.
Proof. repeat split. Qed.

Lemma nth_error_replace_nth_other (h : heap) (r c : ref) (d : Dict.t pyval) :
  r <> c -> nth_error (replace_nth r d h) c = nth_error h c.
Proof.
  revert r c. induction h as [|x h IH]; intros [|r] [|c] Hne; simpl;
    try reflexivity; try congruence.
  apply IH. congruence.
Qed.







Lemma dict_eqb_single_key_l (d : Dict.t pyval) (logical : string) (x : pyval) :
  Dict.contains logical d = false -> dict_eqb [(logical, x)] d = false.
Proof.
  intros C. unfold dict_eqb. simpl.
  unfold Dict.contains in C.
  destruct (Dict.get logical d); [discriminate|].
  now rewrite andb_false_r.
Qed.

(** One more operand appended to a chain that is already wrapped. *)
Lemma chain_appends (logical : string) (op : ref -> pyobj -> M ref) :
  (forall r c h,
      op r (Filters c) h
      = (checked <- QbFieldFilters.__checks r (Filters c) logical ;;
         match checked with
         | Some r' => ret r'
         | None => QbFieldFilters.wrap r (Filters c) logical
         end) h) ->
  forall (ops : list (ref * Dict.t pyval)) (h : heap) (r : ref) (xs : list pyval),
    nth_error h r = Some [(logical, PList xs)] ->
    Forall (fun p => nth_error h (fst p) = Some (snd p) /\
                     Dict.contains logical (snd p) = false) ops ->
    combine_all op r (map fst ops) h
    = Ok (r, replace_nth r
               [(logical, PList (xs ++ map (fun p => PDict (snd p)) ops))] h).
Proof.
  intros Hop. induction ops as [|[c dc] ops IH]; intros h r xs Hr Hops; simpl.
  - unfold ret. rewrite app_nil_r. now rewrite (replace_nth_same _ _ _ Hr).
  - inversion Hops as [|? ? [Hc Cc] Hops']; subst. simpl in Hc, Cc.
    unfold bind at 1. rewrite Hop. unfold bind at 1.
    assert (G : Dict.get logical [(logical, PList xs)] = Some (PList xs)).
    { cbn -[String.eqb]. now rewrite String.eqb_refl. }
    rewrite (checks_append _ _ _ _ _ _ _ Hr Hc
               (dict_eqb_single_key _ _ _ Cc) G).
    assert (S : Dict.set logical (PList (xs ++ [PDict dc])) [(logical, PList xs)]
                = [(logical, PList (xs ++ [PDict dc]))]).
    { cbn -[String.eqb]. now rewrite String.eqb_refl. }
    rewrite S. unfold ret.
    rewrite (IH _ r (xs ++ [PDict dc])).
    + rewrite replace_nth_twice, <- app_assoc. reflexivity.
    + now apply (nth_error_replace_nth _ _ [(logical, PList xs)]).
    + rewrite Forall_forall in *. intros [c' dc'] Hin.
      destruct (Hops' _ Hin) as [Hc' Cc']. cbn [fst snd] in *.
      split; [|assumption].
      rewrite nth_error_replace_nth_other; [assumption|].
      intros ->. rewrite Hr in Hc'. inversion Hc'; subst dc'.
      unfold Dict.contains in Cc'. now rewrite G in Cc'.
Qed.

(** X13. A chain [a op b op c1 op ... op cn] of one operator, [&] or [|],
    over operands that do not hold the operator's key (and with [a] and [b]
    structurally distinct) is one new object: a single entry under that key
    whose list holds all the operand mappings in order, however long the
    chain.  The operands are left as they were. *)
Theorem X13_chain_of_one_operator_stays_flat
    (logical : string) (op : ref -> pyobj -> M ref)
    (h : heap) (a b : ref) (da db : Dict.t pyval)
    (ops : list (ref * Dict.t pyval)) :
  (logical = "and" /\ op = QbFieldFilters.__and__) \/
  (logical = "or" /\ op = QbFieldFilters.__or__) ->
  nth_error h a = Some da ->
  nth_error h b = Some db ->
  dict_eqb db da = false ->
  Dict.contains logical da = false ->
  Forall (fun p => nth_error h (fst p) = Some (snd p) /\
                   Dict.contains logical (snd p) = false) ops ->
  combine_all op a (b :: map fst ops) h
  = Ok (List.length h,
        h ++ [[(logical,
                PList (PDict da :: PDict db ::
                       map (fun p => PDict (snd p)) ops))]]).
Proof.
  intros Hop Ha Hb E Ca Hops.
  assert (Hop' : forall r c h0,
             op r (Filters c) h0
             = (checked <- QbFieldFilters.__checks r (Filters c) logical ;;
                match checked with
                | Some r' => ret r'
                | None => QbFieldFilters.wrap r (Filters c) logical
                end) h0).
  { destruct Hop as [[-> ->] | [-> ->]]; reflexivity. }
  simpl. unfold bind at 1. rewrite Hop'. unfold bind at 1.
  rewrite (checks_none _ _ _ _ _ _ Ha Hb E Ca).
  rewrite (wrap_ok _ _ _ _ _ _ Ha Hb).
  rewrite (chain_appends logical op Hop' ops _ (List.length h)
             [PDict da; PDict db]).
  - now rewrite replace_nth_alloc.
  - apply nth_error_alloc.
  - rewrite Forall_forall in *. intros p Hin.
    destruct (Hops p Hin) as [Hp Cp]. split; [|assumption].
    now apply nth_error_alloc_old.
Qed.

Lemma X13_chain_of_one_operator_stays_flat_witness :
  combine_all QbFieldFilters.__or__ 0 [1; 2; 0; 2]
    [id_eq_1; id_ne_2; id_gt_3]
  = Ok (3, [id_eq_1; id_ne_2; id_gt_3;
            [("or", PList [PDict id_eq_1; PDict id_ne_2; PDict id_gt_3;
                           PDict id_eq_1; PDict id_gt_3])]]).
Proof.
  apply (X13_chain_of_one_operator_stays_flat "or" QbFieldFilters.__or__
           [id_eq_1; id_ne_2; id_gt_3] 0 1 id_eq_1 id_ne_2
           [(2, id_gt_3); (0, id_eq_1); (2, id_gt_3)]).
  - right. split; reflexivity.
  - reflexivity.
  - reflexivity.
  - reflexivity.
  - reflexivity.
  - repeat constructor.
Defined.

(** X14. Only the left operand is flattened.  For [a], [b], [c] with
    [c == b] false and no ["and"] key in [a] and in [b]: in [a & (b & c)]
    the right operand is already wrapped, and it is nested as one element,
    giving [{'and': [a, {'and': [b, c]}]}] where [(a & b) & c] has a list
    of three. *)
Theorem X14_wrapped_right_operand_is_nested
    (h : heap) (a b c : ref) (da db dc : Dict.t pyval) :
  nth_error h a = Some da ->
  nth_error h b = Some db ->
  nth_error h c = Some dc ->
  dict_eqb dc db = false ->
  Dict.contains "and" da = false ->
  Dict.contains "and" db = false ->
  and_right a b c h
  = Ok (1 + List.length h,
        h ++ [[("and", PList [PDict db; PDict dc])];
              [("and", PList [PDict da;
                              PDict [("and", PList [PDict db; PDict dc])]])]]).
Proof.
  intros Ha Hb Hc E Ca Cb.
  unfold and_right, bind at 1. unfold QbFieldFilters.__and__ at 1, bind at 1.
  rewrite (checks_none _ _ _ _ _ _ Hb Hc E Cb).
  rewrite (wrap_ok _ _ _ _ _ _ Hb Hc).
  set (R := [("and", PList [PDict db; PDict dc])]).
  unfold QbFieldFilters.__and__, bind.
  rewrite (checks_none (h ++ [R]) a (List.length h) da R "and"
             (nth_error_alloc_old _ _ _ _ Ha) (nth_error_alloc h R)
             (dict_eqb_single_key_l _ _ _ Ca) Ca).
  rewrite (wrap_ok _ _ _ _ _ _
             (nth_error_alloc_old _ _ _ _ Ha) (nth_error_alloc h R)).
  rewrite length_app, <- app_assoc. simpl.
  do 2 f_equal. lia.
Qed.

Lemma X14_wrapped_right_operand_is_nested_witness :
  and_right 0 1 2 [id_eq_1; id_ne_2; id_gt_3]
  = Ok (4, [id_eq_1; id_ne_2; id_gt_3;
            [("and", PList [PDict id_ne_2; PDict id_gt_3])];
            [("and", PList [PDict id_eq_1;
                            PDict [("and", PList [PDict id_ne_2;
                                                  PDict id_gt_3])]])]]).
Proof.
  apply (X14_wrapped_right_operand_is_nested [id_eq_1; id_ne_2; id_gt_3]
           0 1 2 id_eq_1 id_ne_2 id_gt_3); reflexivity.
Defined.

(** X15. Different operators do not merge.  For [a], [b], [c] with
    [b == a] false and no ["and"] key in [a] and in [c]: [(a & b) | c] is
    a new object [{'or': [{'and': [a, b]}, c]}], the conjunction nested as
    the first element of the disjunction, and the object built for [a & b]
    is left as it was. *)
Theorem X15_mixed_operators_nest
    (h : heap) (a b c : ref) (da db dc : Dict.t pyval) :
  nth_error h a = Some da ->
  nth_error h b = Some db ->
  nth_error h c = Some dc ->
  dict_eqb db da = false ->
  Dict.contains "and" da = false ->
  Dict.contains "and" dc = false ->
  and_then_or a b c h
  = Ok (1 + List.length h,
        h ++ [[("and", PList [PDict da; PDict db])];
              [("or", PList [PDict [("and", PList [PDict da; PDict db])];
                             PDict dc])]]).
Proof.
  intros Ha Hb Hc E Ca Cc.
  unfold and_then_or, bind at 1. unfold QbFieldFilters.__and__ at 1, bind at 1.
  rewrite (checks_none _ _ _ _ _ _ Ha Hb E Ca).
  rewrite (wrap_ok _ _ _ _ _ _ Ha Hb).
  set (R := [("and", PList [PDict da; PDict db])]).
  unfold QbFieldFilters.__or__, bind.
  rewrite (checks_none (h ++ [R]) (List.length h) c R dc "or"
             (nth_error_alloc h R) (nth_error_alloc_old _ _ _ _ Hc)
             (dict_eqb_single_key _ _ _ Cc) eq_refl).
  rewrite (wrap_ok _ _ _ _ _ _
             (nth_error_alloc h R) (nth_error_alloc_old _ _ _ _ Hc)).
  rewrite length_app, <- app_assoc. simpl.
  do 2 f_equal. lia.
Qed.

Lemma X15_mixed_operators_nest_witness :
  and_then_or 0 1 2 [id_eq_1; id_ne_2; id_gt_3]
  = Ok (4, [id_eq_1; id_ne_2; id_gt_3;
            [("and", PList [PDict id_eq_1; PDict id_ne_2])];
            [("or", PList [PDict [("and", PList [PDict id_eq_1;
                                                 PDict id_ne_2])];
                           PDict id_gt_3])]]).
Proof.
  apply (X15_mixed_operators_nest [id_eq_1; id_ne_2; id_gt_3]
           0 1 2 id_eq_1 id_ne_2 id_gt_3); reflexivity.
Defined.

(** ** Equality of filters, continued *)

Lemma dict_eqb_perm (d1 d2 : Dict.t pyval) :
  NoDup (map fst d2) ->
  (forall k v, In (k, v) d1 -> wf_val v = true) ->
  Permutation d1 d2 ->
  dict_eqb d1 d2 = true.
Proof.
  intros N W P. unfold dict_eqb. simpl.
  rewrite (Permutation_length P), Nat.eqb_refl. simpl.
  apply items_in_spec. intros k v Hin. exists v. split.
  - apply In_get_NoDup; [assumption|]. now apply (Permutation_in _ P).
  - apply pyval_eqb_refl. now apply (W k).
Qed.

(** X16. Equality of filters objects ignores the order of the keys: two
    objects whose mappings hold the same entries in any order are equal,
    whichever is on the left. *)
Theorem X16_equality_ignores_key_order
    (h : heap) (a b : ref) (da db : Dict.t pyval) :
  nth_error h a = Some da ->
  nth_error h b = Some db ->
  wf_dict da = true ->
  Permutation da db ->
  QbFieldFilters.__eq__ a (Filters b) h = Ok (true, h) /\
  QbFieldFilters.__eq__ b (Filters a) h = Ok (true, h).
Proof.
  intros Ha Hb W P.
  destruct (wf_dict_inv _ W) as [Na Wa].
  assert (Nb : NoDup (map fst db)).
  { apply (Permutation_NoDup (l := map fst da)); [|assumption].
    now apply Permutation_map. }
  assert (Wb : forall k v, In (k, v) db -> wf_val v = true).
  { intros k v Hin. apply (Wa k).
    now apply (Permutation_in _ (Permutation_sym P)). }
  rewrite (eq_ok _ _ _ _ _ Ha Hb), (eq_ok _ _ _ _ _ Hb Ha).
  rewrite (dict_eqb_perm da db Nb Wa P).
  rewrite (dict_eqb_perm db da Na Wb (Permutation_sym P)).
  split; reflexivity.
Qed.

Lemma X16_equality_ignores_key_order_witness :
  QbFieldFilters.__eq__ 0 (Filters 1)
    [[("id", PDict [("==", PInt 1)]); ("uuid", PDict [("like", PStr "a%")])];
     [("uuid", PDict [("like", PStr "a%")]); ("id", PDict [("==", PInt 1)])]]
  = Ok (true,
        [[("id", PDict [("==", PInt 1)]); ("uuid", PDict [("like", PStr "a%")])];
         [("uuid", PDict [("like", PStr "a%")]); ("id", PDict [("==", PInt 1)])]])
  /\
  QbFieldFilters.__eq__ 1 (Filters 0)
    [[("id", PDict [("==", PInt 1)]); ("uuid", PDict [("like", PStr "a%")])];
     [("uuid", PDict [("like", PStr "a%")]); ("id", PDict [("==", PInt 1)])]]
  = Ok (true,
        [[("id", PDict [("==", PInt 1)]); ("uuid", PDict [("like", PStr "a%")])];
         [("uuid", PDict [("like", PStr "a%")]); ("id", PDict [("==", PInt 1)])]]).
Proof.
  apply (X16_equality_ignores_key_order
           [[("id", PDict [("==", PInt 1)]); ("uuid", PDict [("like", PStr "a%")])];
            [("uuid", PDict [("like", PStr "a%")]); ("id", PDict [("==", PInt 1)])]]
           0 1
           [("id", PDict [("==", PInt 1)]); ("uuid", PDict [("like", PStr "a%")])]
           [("uuid", PDict [("like", PStr "a%")]); ("id", PDict [("==", PInt 1)])]).
  - reflexivity.
  - reflexivity.
  - reflexivity.
  - apply perm_swap.
Defined.

(** X17. Equality of filters objects is symmetric: [a == b] and [b == a]
    give the same answer and neither changes the heap. *)
Theorem X17_equality_is_symmetric
    (h : heap) (a b : ref) (da db : Dict.t pyval) :
  nth_error h a = Some da ->
  nth_error h b = Some db ->
  wf_dict da = true ->
  wf_dict db = true ->
  exists answer,
    QbFieldFilters.__eq__ a (Filters b) h = Ok (answer, h) /\
    QbFieldFilters.__eq__ b (Filters a) h = Ok (answer, h).
Proof.
  intros Ha Hb Wa Wb. exists (dict_eqb da db).
  rewrite (eq_ok _ _ _ _ _ Ha Hb), (eq_ok _ _ _ _ _ Hb Ha).
  now rewrite (dict_eqb_sym db da).
Qed.

Lemma X17_equality_is_symmetric_witness :
  exists answer,
    QbFieldFilters.__eq__ 0 (Filters 1) [id_eq_1; id_ne_2] = Ok (answer, [id_eq_1; id_ne_2]) /\
    QbFieldFilters.__eq__ 1 (Filters 0) [id_eq_1; id_ne_2] = Ok (answer, [id_eq_1; id_ne_2]).
Proof.
  apply (X17_equality_is_symmetric [id_eq_1; id_ne_2] 0 1 id_eq_1 id_ne_2);
    reflexivity.
Defined.

(** ** Building from triples, continued *)

Lemma pair_step (q : string) (d : Dict.t pyval)
    (t1 t2 : QbField.t * string * pyval) :
  q <> "and" ->
  d = [] \/ (exists x, d = [("and", x)]) ->
  triple_name t1 = q -> triple_name t2 = q ->
  triple_step (triple_step d t1) t2
  = [("and", PList [PDict [(q, triple_spec t1)]; PDict [(q, triple_spec t2)]])].
Proof.
  intros Hq Hd H1 H2.
  destruct t1 as [[f1 c1] v1], t2 as [[f2 c2] v2].
  unfold triple_name in H1, H2. simpl in H1, H2.
  assert (Hand : ("and" =? q)%string = false)
    by (apply String.eqb_neq; congruence).
  unfold triple_step, triple_spec.
  destruct Hd as [-> | [x ->]]; rewrite H1, H2;
    repeat (cbn -[String.eqb]; rewrite ?String.eqb_refl, ?Hand);
    reflexivity.
Qed.

Lemma even_fold (q : string) :
  q <> "and" ->
  forall n (ts : list (QbField.t * string * pyval)) (d : Dict.t pyval),
    List.length ts = 2 * n ->
    Forall (fun t => triple_name t = q) ts ->
    d = [] \/ (exists x, d = [("and", x)]) ->
    fold_left triple_step ts d = [] \/
    exists x, fold_left triple_step ts d = [("and", x)].
Proof.
  intros Hq. induction n as [|n IH]; intros ts d Hlen Hall Hd.
  - destruct ts; [exact Hd | discriminate].
  - destruct ts as [|t1 [|t2 ts]]; simpl in Hlen; try lia.
    pose proof (Forall_inv Hall) as H1.
    pose proof (Forall_inv (Forall_inv_tail Hall)) as H2.
    pose proof (Forall_inv_tail (Forall_inv_tail Hall)) as Hall2.
    change (fold_left triple_step (t1 :: t2 :: ts) d)
      with (fold_left triple_step ts (triple_step (triple_step d t1) t2)).
    apply IH; [lia | assumption |].
    right. eexists. exact (pair_step q d t1 t2 Hq Hd H1 H2).
Qed.

(** X18. When all triples are on one query name [q] (other than ["and"]),
    only the end of the sequence survives: after an even number of triples,
    two more leave just [{'and': [{q: s1}, {q: s2}]}], and a third one after
    them is stored under [q] beside it; every earlier triple is gone. *)
Theorem X18_only_the_last_triples_survive
    (q : string) (ts : list (QbField.t * string * pyval))
    (t1 t2 : QbField.t * string * pyval) (h : heap) :
  q <> "and" ->
  Forall (fun t => triple_name t = q) ts ->
  Nat.even (List.length ts) = true ->
  triple_name t1 = q ->
  triple_name t2 = q ->
  QbFieldFilters.__init__ (QbFieldFilters.OfTriples (ts ++ [t1; t2])) h
  = Ok (List.length h,
        h ++ [[("and", PList [PDict [(q, triple_spec t1)];
                              PDict [(q, triple_spec t2)]])]])
  /\
  forall t3,
    triple_name t3 = q ->
    QbFieldFilters.__init__ (QbFieldFilters.OfTriples (ts ++ [t1; t2; t3])) h
    = Ok (List.length h,
          h ++ [[("and", PList [PDict [(q, triple_spec t1)];
                                PDict [(q, triple_spec t2)]]);
                 (q, triple_spec t3)]]).
Proof.
  intros Hq Hall Heven H1 H2.
  apply Nat.even_spec in Heven. destruct Heven as [n Hn].
  pose proof (even_fold q Hq n ts [] Hn Hall (or_introl eq_refl)) as Hd.
  split; [|intros t3 H3]; rewrite init_of_triples, fold_left_app.
  - simpl. now rewrite (pair_step q _ t1 t2 Hq Hd H1 H2).
  - change (fold_left triple_step [t1; t2; t3] (fold_left triple_step ts []))
      with (triple_step
              (triple_step (triple_step (fold_left triple_step ts []) t1) t2) t3).
    rewrite (pair_step q _ t1 t2 Hq Hd H1 H2).
    destruct t3 as [[f3 c3] v3]. unfold triple_name in H3. simpl in H3.
    assert (Hand : ("and" =? q)%string = false)
      by (apply String.eqb_neq; congruence).
    unfold triple_step, triple_spec. rewrite H3.
    repeat (cbn -[String.eqb]; rewrite ?String.eqb_refl, ?Hand).
    reflexivity.
Qed.

Lemma X18_only_the_last_triples_survive_witness :
  QbFieldFilters.__init__
    (QbFieldFilters.OfTriples
       ([(pk, "==", PInt 1); (pk, "!=", PInt 2); (pk, ">", PInt 3);
         (pk, ">=", PInt 4)] ++ [(pk, "<", PInt 5); (pk, "<=", PInt 6)])) []
  = Ok (0, [[("and", PList [PDict [("id", PDict [("<", PInt 5)])];
                            PDict [("id", PDict [("<=", PInt 6)])]])]])
  /\
  forall t3,
    triple_name t3 = "id" ->
    QbFieldFilters.__init__
      (QbFieldFilters.OfTriples
         ([(pk, "==", PInt 1); (pk, "!=", PInt 2); (pk, ">", PInt 3);
           (pk, ">=", PInt 4)] ++ [(pk, "<", PInt 5); (pk, "<=", PInt 6); t3])) []
    = Ok (0, [[("and", PList [PDict [("id", PDict [("<", PInt 5)])];
                              PDict [("id", PDict [("<=", PInt 6)])]]);
               ("id", triple_spec t3)]]).
Proof.
  apply (X18_only_the_last_triples_survive "id"
           [(pk, "==", PInt 1); (pk, "!=", PInt 2); (pk, ">", PInt 3);
            (pk, ">=", PInt 4)]
           (pk, "<", PInt 5) (pk, "<=", PInt 6) []).
  - discriminate.
  - repeat constructor.
  - reflexivity.
  - reflexivity.
  - reflexivity.
Defined.

Lemma distinct_fold (ts : list (QbField.t * string * pyval)) :
  forall acc,
    NoDup (Dict.keys acc ++ map triple_name ts) ->
    fold_left triple_step ts acc
    = acc ++ map (fun t => (triple_name t, triple_spec t)) ts.
Proof.
  induction ts as [|[[f c] v] ts IH]; intros acc Hnd; simpl.
  - now rewrite app_nil_r.
  - assert (Hk : ~ In (QbField.qb_field f) (Dict.keys acc)).
    { intros H. simpl in Hnd. apply NoDup_remove_2 in Hnd. apply Hnd.
      apply in_or_app. now left. }
    rewrite (get_absent _ _ Hk), (set_absent_app _ _ _ Hk), IH.
    + now rewrite <- app_assoc.
    + unfold Dict.keys in *. rewrite map_app, <- app_assoc. exact Hnd.
Qed.

(** X19. Triples on pairwise distinct query names never fold: the mapping
    has one entry [{name: {comparator: value}}] per triple, in the order of
    the triples. *)
Theorem X19_distinct_names_do_not_fold
    (ts : list (QbField.t * string * pyval)) (h : heap) :
  NoDup (map triple_name ts) ->
  QbFieldFilters.__init__ (QbFieldFilters.OfTriples ts) h
  = Ok (List.length h,
        h ++ [map (fun t => (triple_name t, triple_spec t)) ts]).
Proof.
  intros Hnd. rewrite init_of_triples.
  now rewrite (distinct_fold ts []).
Qed.

Lemma X19_distinct_names_do_not_fold_witness :
  QbFieldFilters.__init__
    (QbFieldFilters.OfTriples
       [(pk, "==", PInt 1); (uuid, "like", PStr "a%");
        (field_named_and, "<", PInt 3)]) []
  = Ok (0, [[("id", PDict [("==", PInt 1)]);
             ("uuid", PDict [("like", PStr "a%")]);
             ("and", PDict [("<", PInt 3)])]]).
Proof.
  apply (X19_distinct_names_do_not_fold
           [(pk, "==", PInt 1); (uuid, "like", PStr "a%");
            (field_named_and, "<", PInt 3)] []).
  repeat constructor; simpl; intuition discriminate.
Defined.

(** ** Nested field derivation, continued *)

(** X20. Subscripting a field that is not subscriptable raises
    [IndexError], whatever its class.  Subscripting a subscriptable plain
    [QbField] with [s] gives a plain [QbField] whose key and query name are
    the parent's followed by a dot and [s]. *)
Theorem X20_subscript_of_a_plain_field (f : QbField.t) (s : string) :
  if QbField.subscriptable f
  then QbField.__class__ f = QbField.QbField ->
       exists f',
         QbField.__getitem__ f s = Ok f' /\
         QbField.__class__ f' = QbField.QbField /\
         QbField.key f' = QbField.key f +++ "." +++ s /\
         QbField.qb_field f' = QbField.qb_field f +++ "." +++ s
  else QbField.__getitem__ f s = Raise IndexError.
Proof.
  destruct (QbField.subscriptable f) eqn:Hs.
  - intros Hc. unfold QbField.__getitem__. rewrite Hs. simpl.
    eexists. split; [reflexivity|].
    unfold QbField.qb_field. simpl. rewrite Hc. simpl. auto.
  - unfold QbField.__getitem__. now rewrite Hs.
Qed.



(** ** From a class to a filter *)



(** ** The synthesised Model *)

Lemma parent_models_in (bases : list Class) (m : ModelClass) :
  In m (EntityFieldMeta.parent_models bases) <->
  exists base, In base bases /\ getattr_Model base = Some m.
Proof.
  unfold EntityFieldMeta.parent_models. rewrite in_flat_map.
  split; intros [base [Hin H]]; exists base; split; auto.
  - destruct (getattr_Model base) as [m'|]; simpl in H; [|contradiction].
    destruct H as [-> | []]. reflexivity.
  - rewrite H. now left.
Qed.

(** X23. When the class body declares a Model, [__new__] replaces it by a
    type synthesised from bases that start with the declared Model and
    otherwise hold exactly the Models that the class's bases resolve, or
    [BaseModel] when no base resolves one; a failure of that synthesis
    aborts the creation of the class.  A class body without a Model is
    passed on untouched. *)
Theorem X23_new_synthesises_the_model_from_all_parents
    (type_Model : list ModelClass -> result ModelClass)
    (type_new : string -> list Class -> option ModelClass ->
                option fields_attr -> result Class)
    (name : string) (bases : list Class) (declared : ModelClass)
    (classdict_fields : option fields_attr) :
  exists rest,
    (forall m, In m rest <->
               (exists base, In base bases /\ getattr_Model base = Some m) \/
               (m = BaseModel /\
                forall base, In base bases -> getattr_Model base = None)) /\
    EntityFieldMeta.__new__ type_Model type_new name bases (Some declared)
      classdict_fields
    = match type_Model (declared :: rest) with
      | Ok model => type_new name bases (Some model) classdict_fields
      | Raise e => Raise e
      end /\
    EntityFieldMeta.__new__ type_Model type_new name bases None classdict_fields
    = type_new name bases None classdict_fields.
Proof.
  destruct (EntityFieldMeta.parent_models bases) as [|m0 pm] eqn:E.
  - exists [BaseModel]. split; [|split].
    + intros m. split.
      * intros [<- | []]. right. split; [reflexivity|].
        intros base Hin.
        destruct (getattr_Model base) as [m'|] eqn:G; [|reflexivity].
        assert (H : In m' (EntityFieldMeta.parent_models bases))
          by (apply parent_models_in; eauto).
        rewrite E in H. contradiction.
      * intros [[base [Hin G]] | [-> _]]; [|now left].
        assert (H : In m (EntityFieldMeta.parent_models bases))
          by (apply parent_models_in; eauto).
        rewrite E in H. contradiction.
    + unfold EntityFieldMeta.__new__, EntityFieldMeta.Model_bases.
      now rewrite E.
    + reflexivity.
  - exists (m0 :: pm). split; [|split].
    + intros m. rewrite <- E, parent_models_in. split.
      * intros H. now left.
      * intros [H | [_ Hnone]]; [assumption|].
        exfalso.
        assert (H : In m0 (EntityFieldMeta.parent_models bases))
          by (rewrite E; now left).
        apply parent_models_in in H. destruct H as [base [Hin G]].
        rewrite (Hnone base Hin) in G. discriminate.
    + unfold EntityFieldMeta.__new__, EntityFieldMeta.Model_bases.
      now rewrite E.
    + reflexivity.
Qed.
